(** * Resume information extraction engine (backend/services/nlpService.js)

    A shallow embedding of the [NLPService] class: the rule-based fallback
    pipeline, the defensive parsing of the completion endpoint's answer and
    the candidate brief generator.

    Alphabet.  A JavaScript string is a sequence of UTF-16 code units.  The
    strings of this development are [string]s whose characters stand for
    the code units U+0000 to U+00FF (Latin-1); on that range
    [toLowerCase], [trim] and the regular-expression classes below are
    the ones of ECMAScript. *)

From Stdlib Require Import Bool Arith List Lia Ascii String ZArith DecimalString.
Import ListNotations.
Set Warnings "-register-all".
Open Scope string_scope.
Open Scope nat_scope.
Open Scope list_scope.

(** ** String primitives of the runtime *)

Definition charCode (c : ascii) : nat := nat_of_ascii c.

Definition in_range (a b : nat) (c : ascii) : bool :=
  (a <=? charCode c) && (charCode c <=? b).

(** White space and line terminators of ECMAScript below U+0100: TAB, LF,
    VT, FF, CR, SP and NBSP.  Used by [trim] and by the class [\s]. *)
Definition isWhiteSpace (c : ascii) : bool :=
  in_range 9 13 c || (charCode c =? 32) || (charCode c =? 160).

Definition isDigit (c : ascii) : bool := in_range 48 57 c.

(** The class [\w]: ASCII letters, digits and the underscore. *)
Definition isWord (c : ascii) : bool :=
  in_range 65 90 c || in_range 97 122 c || isDigit c || (charCode c =? 95).

(** Upper-case letters below U+0100: A-Z and U+00C0-U+00DE but U+00D7. *)
Definition isUpper (c : ascii) : bool :=
  in_range 65 90 c || (in_range 192 222 c && negb (charCode c =? 215)).

Definition lowerChar (c : ascii) : ascii :=
  if isUpper c then ascii_of_nat (charCode c + 32) else c.

Fixpoint toLowerCase (s : string) : string :=
  match s with
  | EmptyString => EmptyString
  | String c s' => String (lowerChar c) (toLowerCase s')
  end.

Fixpoint startsWith (t p : string) : bool :=
  match p, t with
  | EmptyString, _ => true
  | String a p', String b t' => Ascii.eqb a b && startsWith t' p'
  | String _ _, EmptyString => false
  end.

(** [t.includes(p)] *)
Fixpoint includes (t p : string) : bool :=
  startsWith t p ||
  match t with
  | EmptyString => false
  | String _ t' => includes t' p
  end.

Fixpoint trimStart (s : string) : string :=
  match s with
  | EmptyString => EmptyString
  | String c s' => if isWhiteSpace c then trimStart s' else s
  end.

Fixpoint trimEnd (s : string) : string :=
  match s with
  | EmptyString => EmptyString
  | String c s' =>
      match trimEnd s' with
      | EmptyString => if isWhiteSpace c then EmptyString else String c EmptyString
      | r => String c r
      end
  end.

Definition trim (s : string) : string := trimEnd (trimStart s).

(** [s.split(sep)] for a one-character separator: never the empty list. *)
Fixpoint split (sep : ascii) (s : string) : list string :=
  match s with
  | EmptyString => [EmptyString]
  | String c s' =>
      if Ascii.eqb c sep then EmptyString :: split sep s'
      else match split sep s' with
           | [] => [String c EmptyString]
           | h :: t => String c h :: t
           end
  end.

Fixpoint take (n : nat) (s : string) : string :=
  match n, s with
  | S n', String c s' => String c (take n' s')
  | _, _ => EmptyString
  end.

Fixpoint drop (n : nat) (s : string) : string :=
  match n, s with
  | S n', String _ s' => drop n' s'
  | _, _ => s
  end.

(** [s.indexOf(c)], -1 when [c] does not occur. *)
Fixpoint indexOf (c : ascii) (s : string) : Z :=
  match s with
  | EmptyString => (-1)%Z
  | String a s' =>
      if Ascii.eqb a c then 0%Z
      else let i := indexOf c s' in
           if (i =? -1)%Z then (-1)%Z else (i + 1)%Z
  end.

(** [s.lastIndexOf(c)], -1 when [c] does not occur. *)
Fixpoint lastIndexOf (c : ascii) (s : string) : Z :=
  match s with
  | EmptyString => (-1)%Z
  | String a s' =>
      let i := lastIndexOf c s' in
      if (i =? -1)%Z then (if Ascii.eqb a c then 0%Z else (-1)%Z)
      else (i + 1)%Z
  end.

(** [s.substring(a, b)]: both bounds are clamped to [0, length] and
    swapped when the first exceeds the second. *)
Definition substring (a b : Z) (s : string) : string :=
  let len := Z.of_nat (String.length s) in
  let a' := Z.max 0 (Z.min a len) in
  let b' := Z.max 0 (Z.min b len) in
  let lo := Z.to_nat (Z.min a' b') in
  let hi := Z.to_nat (Z.max a' b') in
  take (hi - lo) (drop lo s).

(** [l.join(sep)] *)
Definition join (sep : string) (l : list string) : string := String.concat sep l.

(** [l.slice(a, b)] on arrays, for bounds within the naturals. *)
Definition slice {A : Type} (a b : nat) (l : list A) : list A :=
  firstn (b - a) (skipn a l).

Definition nonEmpty (s : string) : bool := negb (String.eqb s EmptyString).

(** ** Regular expressions

    Every quantifier of the three patterns of the service applies to a
    single-character atom, so a pattern is a sequence of atoms, each a
    character class with a repetition range.  Quantifiers are greedy and
    backtrack, as in ECMAScript. *)

Record atom : Type := mkAtom
  { accepts : ascii -> bool;
    atLeast : nat;
    atMost : option nat }.

Definition regex : Type := list atom.

(** Length of the longest run of accepted characters at the head of [s],
    not beyond the bound. *)
Fixpoint run (p : ascii -> bool) (bound : option nat) (s : string) : nat :=
  match s with
  | EmptyString => 0
  | String c s' =>
      match bound with
      | Some 0 => 0
      | Some (S b) => if p c then S (run p (Some b) s') else 0
      | None => if p c then S (run p None s') else 0
      end
  end.

(** Try [k], [k-1], ..., [lo] repetitions, the first for which the rest
    of the pattern matches wins. *)
Fixpoint backtrack (rest : string -> option nat) (s : string) (lo k : nat)
  : option nat :=
  if k <? lo then None
  else match rest (drop k s) with
       | Some m => Some (k + m)
       | None =>
           match k with
           | 0 => None
           | S k' => backtrack rest s lo k'
           end
       end.

(** Match the pattern at the head of [s]; the length of the match. *)
Fixpoint matchHere (r : regex) (s : string) : option nat :=
  match r with
  | [] => Some 0
  | a :: r' =>
      backtrack (matchHere r') s (atLeast a) (run (accepts a) (atMost a) s)
  end.

(** Leftmost match: start index and length. *)
Fixpoint searchFrom (r : regex) (s : string) (i : nat) : option (nat * nat) :=
  match matchHere r s with
  | Some n => Some (i, n)
  | None =>
      match s with
      | EmptyString => None
      | String _ s' => searchFrom r s' (S i)
      end
  end.

Definition search (r : regex) (s : string) : option (nat * nat) :=
  searchFrom r s 0.

(** [s.match(r)] for a pattern without the global flag; the result is the
    element 0 of the match array, [None] stands for [null]. *)
Definition regexMatch (r : regex) (s : string) : option string :=
  match search r s with
  | Some (i, n) => Some (take n (drop i s))
  | None => None
  end.

(** [s.replace(r, by)]: the leftmost match only. *)
Definition regexReplace (r : regex) (by_ : string) (s : string) : string :=
  match search r s with
  | Some (i, n) => (take i s ++ by_ ++ drop (i + n) s)%string
  | None => s
  end.

Definition once (p : ascii -> bool) : atom := mkAtom p 1 (Some 1).
Definition opt (p : ascii -> bool) : atom := mkAtom p 0 (Some 1).
Definition plus (p : ascii -> bool) : atom := mkAtom p 1 None.
Definition atLeastN (n : nat) (p : ascii -> bool) : atom := mkAtom p n None.

Definition isChar (c : ascii) : ascii -> bool := fun x => Ascii.eqb x c.

(** Canonicalisation of the [i] flag.  A pattern character of the service
    is an ASCII one, and no code unit outside ASCII canonicalises to an
    ASCII one, so only a-z are folded. *)
Definition canonicalize (c : ascii) : ascii :=
  if in_range 97 122 c then ascii_of_nat (charCode c - 32) else c.

Definition isCharI (c : ascii) : ascii -> bool :=
  fun x => Ascii.eqb (canonicalize x) (canonicalize c).

Fixpoint literal (s : string) : regex :=
  match s with
  | EmptyString => []
  | String c s' => once (isChar c) :: literal s'
  end.

Fixpoint literalI (s : string) : regex :=
  match s with
  | EmptyString => []
  | String c s' => once (isCharI c) :: literalI s'
  end.

(** ** Data model *)

(** The service object: [constructor()] stores the two configuration keys. *)
Record NLPService : Type := mkService
  { apiKey : string;
    apiUrl : string }.

Record ExperienceEntry : Type := mkExperience
  { title : string;
    company : string;
    duration : string;
    description : string }.

Record EducationEntry : Type := mkEducation
  { degree : string;
    school : string;
    year : string;
    cgpa : string;
    stream : string }.

(** The fields [name] and [description] of a project entry carry a prefix,
    the plain names being those of the candidate and of an experience. *)
Record ProjectEntry : Type := mkProject
  { projectName : string;
    projectDescription : string;
    technologies : list string }.

(** The object literal returned by [extractFallbackData]. *)
Record CandidateRecord : Type := mkCandidate
  { name : string;
    email : string;
    phone : string;
    linkedin : string;
    skills : list string;
    experience : list ExperienceEntry;
    education : list EducationEntry;
    certifications : list string;
    projects : list ProjectEntry }.

Definition LF : ascii := "010"%char.

(** [x || d] for a string that may be [undefined]. *)
Definition orElse (x : option string) (d : string) : string :=
  match x with
  | Some s => if nonEmpty s then s else d
  | None => d
  end.

(** ** Skill taxonomy matcher *)

Definition technicalSkills : list string :=
  [ "JavaScript"; "Python"; "Java"; "C"; "C++"; "SQL"; "R"; "MATLAB";
    "React"; "Node.js"; "Express.js"; "MongoDB"; "HTML"; "CSS"; "TypeScript";
    "Redux"; "REST API"; "GraphQL"; "Git"; "GitHub"; "GitLab"; "Docker";
    "Kubernetes"; "AWS"; "Azure"; "Google Cloud"; "Firebase"; "OpenCV";
    "TensorFlow"; "PyTorch"; "Machine Learning"; "Deep Learning";
    "Natural Language Processing"; "Computer Vision"; "Data Analysis";
    "Data Visualization"; "Pandas"; "NumPy"; "Scikit-learn"; "Tableau";
    "Power BI"; "Agile"; "Scrum"; "Kanban"; "CI/CD"; "Linux";
    "Shell Scripting"; "Cybersecurity"; "Networking"; "Cloud Computing";
    "System Design"; "OOP"; "Functional Programming"; "Data Structures";
    "Algorithms"; "Database Management"; "Software Testing"; "Unit Testing";
    "Integration Testing"; "UI/UX"; "Figma"; "Wireframing"; "API Integration";
    "Microservices"; "DevOps" ].

Definition defaultSkills : list string := ["JavaScript"; "React"; "Node.js"].

(** The [forEach] of [extractSkillsFromText]: [foundSkills] after the
    taxonomy has been walked. *)
Definition foundSkillsOf (text : string) : list string :=
  let lowerText := toLowerCase text in
  fold_left
    (fun foundSkills skill =>
       if includes lowerText (toLowerCase skill)
       then foundSkills ++ [skill] else foundSkills)
    technicalSkills [].

Definition extractSkillsFromText (text : string) : list string :=
  let foundSkills := foundSkillsOf text in
  if 0 <? List.length foundSkills then foundSkills else defaultSkills.

(** ** Field extractors *)

Definition mentionsPeriod (line : string) : bool :=
  includes line "2019" || includes line "2020" || includes line "2021" ||
  includes line "2022" || includes line "2023" || includes line "Present".

(** The [for] loop of [extractExperienceFromText] over the remaining
    lines, [experience] being the array built so far. *)
Fixpoint experienceLoop (lines : list string) (experience : list ExperienceEntry)
  : list ExperienceEntry :=
  match lines with
  | [] => experience
  | raw :: rest =>
      let line := trim raw in
      if includes line "|" && mentionsPeriod line then
        let parts := map trim (split "|" line) in
        if 3 <=? List.length parts then
          experienceLoop rest
            (experience ++
             [ {| title := nth 0 parts "";
                  company := nth 1 parts "";
                  duration := nth 2 parts "";
                  description := "Developed and maintained software applications" |} ])
        else experienceLoop rest experience
      else experienceLoop rest experience
  end.

Definition placeholderExperience : ExperienceEntry :=
  {| title := "Software Engineer";
     company := "Tech Company";
     duration := "2021 - Present";
     description := "Developed web applications using modern technologies" |}.

Definition extractExperienceFromText (text : string) : list ExperienceEntry :=
  let experience := experienceLoop (split LF text) [] in
  if List.length experience =? 0 then experience ++ [placeholderExperience]
  else experience.

(** The [for] loop of [extractEducationFromText]; it leaves at the first
    line that qualifies ([break]). *)
Fixpoint educationLoop (lines : list string) : list EducationEntry :=
  match lines with
  | [] => []
  | raw :: rest =>
      let line := trim raw in
      if includes (toLowerCase line) "bachelor" ||
         includes (toLowerCase line) "master" ||
         includes (toLowerCase line) "university" then
        let nextLine := match rest with
                        | next :: _ => trim next
                        | [] => ""
                        end in
        [ {| degree := if includes line "Bachelor" then "Bachelor of Science"
                       else if includes line "Master" then "Master of Science"
                       else "Degree";
             school := if includes nextLine "University" then nextLine
                       else "University";
             year := "2020";
             cgpa := "3.5";
             stream := "Computer Science" |} ]
      else educationLoop rest
  end.

Definition placeholderEducation : EducationEntry :=
  {| degree := "Bachelor of Science";
     school := "University";
     year := "2020";
     cgpa := "3.5";
     stream := "Computer Science" |}.

Definition extractEducationFromText (text : string) : list EducationEntry :=
  let education := educationLoop (split LF text) in
  if List.length education =? 0 then education ++ [placeholderEducation]
  else education.

Definition certKeywords : list string :=
  ["AWS"; "Google Cloud"; "MongoDB"; "Scrum"; "Certified"; "Certificate"].

(** [[...new Set(l)]]: the first occurrence of each element, in order. *)
Fixpoint uniqueFrom (seen l : list string) : list string :=
  match l with
  | [] => []
  | x :: l' =>
      if existsb (String.eqb x) seen then uniqueFrom seen l'
      else x :: uniqueFrom (x :: seen) l'
  end.

Definition extractCertificationsFromText (text : string) : list string :=
  let certifications :=
    fold_left
      (fun certifications keyword =>
         if includes (toLowerCase text) (toLowerCase keyword)
         then certifications ++ [(keyword ++ " Certification")%string]
         else certifications)
      certKeywords [] in
  uniqueFrom [] certifications.

(** [/project/i] *)
Definition projectPattern : regex := literalI "project".

(** The [for] loop of [extractProjectsFromText]; [rest] holds the lines
    after the current one, so [lines.slice(i + 1, i + 3)] is its first two
    elements. *)
Fixpoint projectsLoop (lines : list string) (projects : list ProjectEntry)
  : list ProjectEntry :=
  match lines with
  | [] => projects
  | raw :: rest =>
      let line := trim raw in
      if includes (toLowerCase line) "project" &&
         negb (includes (toLowerCase line) "projects:") then
        let nextLines := filter (fun l => 0 <? String.length l)
                                (map trim (slice 0 2 rest)) in
        projectsLoop rest
          (projects ++
           [ {| projectName :=
                  orElse (Some (trim (regexReplace projectPattern "" line)))
                         "Software Project";
                projectDescription :=
                  orElse (nth_error nextLines 0) "Developed a software application";
                technologies :=
                  slice 0 3 (extractSkillsFromText (join " " nextLines)) |} ])
      else projectsLoop rest projects
  end.

Definition placeholderProject : ProjectEntry :=
  {| projectName := "Web Application";
     projectDescription := "Built a full-stack web application";
     technologies := ["React"; "Node.js"; "MongoDB"] |}.

Definition extractProjectsFromText (text : string) : list ProjectEntry :=
  let projects := projectsLoop (split LF text) [] in
  if List.length projects =? 0 then projects ++ [placeholderProject]
  else projects.

(** ** Contact patterns *)

Definition isWordDotDash (c : ascii) : bool :=
  isWord c || isChar "." c || isChar "-" c.

(** [/[\w\.-]+@[\w\.-]+\.\w+/] *)
Definition emailPattern : regex :=
  [ plus isWordDotDash; once (isChar "@"); plus isWordDotDash;
    once (isChar "."); plus isWord ].

Definition isSeparator (c : ascii) : bool :=
  isWhiteSpace c || isChar "-" c || isChar "(" c || isChar ")" c.

Definition isPhoneChar (c : ascii) : bool := isDigit c || isSeparator c.

(** [/[\+]?[1-9]?[\s\-\(\)]?[\d\s\-\(\)]{10,}/] *)
Definition phonePattern : regex :=
  [ opt (isChar "+"); opt (in_range 49 57); opt isSeparator;
    atLeastN 10 isPhoneChar ].

(** The class [[\w\-]] under the [i] flag. *)
Definition isHandleChar (c : ascii) : bool :=
  isWord (canonicalize c) || isChar "-" (canonicalize c).

(** [/linkedin\.com\/in\/[\w\-]+/i] *)
Definition linkedinPattern : regex :=
  literalI "linkedin.com/in/" ++ [ plus isHandleChar ].

(** ** Fallback extraction pipeline *)

Definition extractFallbackData (this : NLPService) (resumeText : string)
  : CandidateRecord :=
  let lines := filter (fun line => 0 <? String.length line)
                      (map trim (split LF resumeText)) in
  let name := orElse (nth_error lines 0) "Unknown" in
  let emailMatch := regexMatch emailPattern resumeText in
  let email := match emailMatch with
               | Some m => m
               | None => "unknown@email.com"
               end in
  let phoneMatch := regexMatch phonePattern resumeText in
  let phone := match phoneMatch with
               | Some m => m
               | None => "Not provided"
               end in
  let linkedinMatch := regexMatch linkedinPattern resumeText in
  let linkedin := match linkedinMatch with
                  | Some m => ("https://" ++ m)%string
                  | None => ""
                  end in
  let skills := extractSkillsFromText resumeText in
  let experience := extractExperienceFromText resumeText in
  let education := extractEducationFromText resumeText in
  let certifications := extractCertificationsFromText resumeText in
  let projects := extractProjectsFromText resumeText in
  {| name := name;
     email := email;
     phone := phone;
     linkedin := linkedin;
     skills := skills;
     experience := experience;
     education := education;
     certifications := certifications;
     projects := projects |}.

(** ** JavaScript values

    What [JSON.parse] can build, and [undefined].  A number is kept as the
    decimal it was written as, [mantissa * 10 ^ exponent]; only whether it
    rounds to zero matters below. *)

Record number : Type := mkNumber
  { negative : bool;
    mantissa : N;
    exponent : Z }.

Inductive jsval : Type :=
  | JUndefined
  | JNull
  | JBool (b : bool)
  | JNum (n : number)
  | JStr (s : string)
  | JArr (elements : list jsval)
  | JObj (props : list (string * jsval)).

(** The outcome of an expression that may throw. *)
Inductive completion (A : Type) : Type :=
  | Return (a : A)
  | Throw.
Arguments Return {A} a.
Arguments Throw {A}.

Definition bind {A B : Type} (c : completion A) (k : A -> completion B)
  : completion B :=
  match c with
  | Return a => k a
  | Throw => Throw
  end.

Notation "x <- c ;; k" := (bind c (fun x => k))
  (at level 61, c at next level, right associativity).

(** A decimal rounds to the double 0 when it is 0, or when it does not
    exceed half of the least positive double, 2^-1075. *)
Definition roundsToZero (n : number) : bool :=
  (mantissa n =? 0)%N ||
  ((exponent n <? 0)%Z &&
   (Z.of_N (mantissa n) * 2 ^ 1075 <=? 10 ^ (- exponent n))%Z).

(** ToBoolean *)
Definition truthy (v : jsval) : bool :=
  match v with
  | JUndefined | JNull => false
  | JBool b => b
  | JNum n => negb (roundsToZero n)
  | JStr s => nonEmpty s
  | JArr _ | JObj _ => true
  end.

(** [a || b] *)
Definition or_ (a b : jsval) : jsval := if truthy a then a else b.

Definition isNullish (v : jsval) : bool :=
  match v with
  | JUndefined | JNull => true
  | _ => false
  end.

(** [Array.isArray(v)] *)
Definition isArray (v : jsval) : bool :=
  match v with
  | JArr _ => true
  | _ => false
  end.

Fixpoint lookup (k : string) (props : list (string * jsval)) : option jsval :=
  match props with
  | [] => None
  | (k', v) :: rest => if String.eqb k' k then Some v else lookup k rest
  end.

(** Defining a property keeps the place of an earlier definition of the
    same key. *)
Fixpoint setProp (props : list (string * jsval)) (k : string) (v : jsval)
  : list (string * jsval) :=
  match props with
  | [] => [(k, v)]
  | (k', v') :: rest =>
      if String.eqb k' k then (k, v) :: rest else (k', v') :: setProp rest k v
  end.

(** [v.k] once [v] is known not to be nullish, for a name [k] that no
    built-in prototype defines: an own property of an object, [undefined]
    on every other value. *)
Definition get (v : jsval) (k : string) : jsval :=
  match v with
  | JObj props =>
      match lookup k props with
      | Some x => x
      | None => JUndefined
      end
  | _ => JUndefined
  end.

(** [v.k]: a TypeError on [undefined] and [null]. *)
Definition getMember (v : jsval) (k : string) : completion jsval :=
  if isNullish v then Throw else Return (get v k).

(** [v?.k] *)
Definition optMember (v : jsval) (k : string) : jsval :=
  if isNullish v then JUndefined else get v k.

(** [v[0]] *)
Definition getFirst (v : jsval) : completion jsval :=
  match v with
  | JUndefined | JNull => Throw
  | JArr l => Return (nth 0 l JUndefined)
  | JStr (String c _) => Return (JStr (String c EmptyString))
  | JObj props => Return (get v "0")
  | _ => Return JUndefined
  end.

(** ** Sanitising the model's answer *)

Definition isTheString (s : string) (v : jsval) : bool :=
  match v with
  | JStr s' => String.eqb s' s
  | _ => false
  end.

(** [cleanJsonResponse(response)].  On a string the three methods are the
    ones of [String.prototype].  An array has [indexOf] and [lastIndexOf]
    (strict equality with the one-character string) but no [substring];
    every other value has no [indexOf] at all. *)
Definition cleanJsonResponse (response : jsval) : completion jsval :=
  match response with
  | JStr s =>
      let jsonStart := indexOf "{" s in
      let jsonEnd := lastIndexOf "}" s in
      if negb (jsonStart =? -1)%Z && negb (jsonEnd =? -1)%Z
      then Return (JStr (substring jsonStart (jsonEnd + 1) s))
      else Return response
  | JArr l =>
      if existsb (isTheString "{") l && existsb (isTheString "}") l
      then Throw
      else Return response
  | _ => Throw
  end.

(** The embedding of a record of the fallback pipeline as the object it
    is at run time. *)
Definition strings (l : list string) : jsval := JArr (map JStr l).

Definition experienceToJS (e : ExperienceEntry) : jsval :=
  JObj [ ("title", JStr (title e)); ("company", JStr (company e));
         ("duration", JStr (duration e)); ("description", JStr (description e)) ].

Definition educationToJS (e : EducationEntry) : jsval :=
  JObj [ ("degree", JStr (degree e)); ("school", JStr (school e));
         ("year", JStr (year e)); ("cgpa", JStr (cgpa e));
         ("stream", JStr (stream e)) ].

Definition projectToJS (p : ProjectEntry) : jsval :=
  JObj [ ("name", JStr (projectName p));
         ("description", JStr (projectDescription p));
         ("technologies", strings (technologies p)) ].

Definition toJS (r : CandidateRecord) : jsval :=
  JObj [ ("name", JStr (name r));
         ("email", JStr (email r));
         ("phone", JStr (phone r));
         ("linkedin", JStr (linkedin r));
         ("skills", strings (skills r));
         ("experience", JArr (map experienceToJS (experience r)));
         ("education", JArr (map educationToJS (education r)));
         ("certifications", strings (certifications r));
         ("projects", JArr (map projectToJS (projects r))) ].

(** [Array.isArray(v) ? v : []] *)
Definition arrayOrEmpty (v : jsval) : jsval :=
  if isArray v then v else JArr [].

(** ** LLM response protocol layer *)

Section Protocol.

(** [JSON.parse] of the runtime, applied to whatever
    [cleanJsonResponse] returned (it converts its argument to a string
    before decoding it). *)
Variable JSON_parse : jsval -> completion jsval.

(** [response.data.choices[0]?.message?.content] *)
Definition messageContent (response : jsval) : completion jsval :=
  data <- getMember response "data" ;;
  choices <- getMember data "choices" ;;
  choice <- getFirst choices ;;
  Return (optMember (optMember choice "message") "content").

(** The object literal built from [parsedData]; reading a property of
    [null] throws. *)
Definition ensureFields (parsedData : jsval) : completion jsval :=
  if isNullish parsedData then Throw
  else Return
    (JObj [ ("name", or_ (get parsedData "name") (JStr "Unknown"));
            ("email", or_ (get parsedData "email") (JStr "unknown@email.com"));
            ("phone", or_ (get parsedData "phone") (JStr "Not provided"));
            ("linkedin", or_ (get parsedData "linkedin") (JStr ""));
            ("skills", arrayOrEmpty (get parsedData "skills"));
            ("experience", arrayOrEmpty (get parsedData "experience"));
            ("education", arrayOrEmpty (get parsedData "education"));
            ("certifications", arrayOrEmpty (get parsedData "certifications"));
            ("projects", arrayOrEmpty (get parsedData "projects")) ]).

(** The [try] block of [extractResumeData].  [post] is the outcome of
    the one [axios.post]: the response object it resolved with, or
    [Throw] when the promise was rejected (network error, timeout,
    status outside 2xx). *)
Definition primaryAttempt (post : completion jsval) : completion jsval :=
  response <- post ;;
  content <- messageContent response ;;
  cleanedContent <- cleanJsonResponse content ;;
  parsedData <- JSON_parse cleanedContent ;;
  ensureFields parsedData.

Definition extractResumeData (this : NLPService) (post : completion jsval)
    (resumeText : string) : jsval :=
  match primaryAttempt post with
  | Return record => record
  | Throw => toJS (extractFallbackData this resumeText)
  end.

End Protocol.

(** ** Candidate brief generator *)

(** [String(n)] for a length. *)
Definition decimal (n : nat) : string := NilEmpty.string_of_uint (Nat.to_uint n).

(** The template literal of the [catch] block, on a record with the
    fields of a [CandidateRecord]. *)
Definition briefTemplate (resumeData : CandidateRecord) : string :=
  (name resumeData ++ " is a qualified "
   ++ orElse (option_map title (nth_error (experience resumeData) 0)) "professional"
   ++ " with expertise in " ++ join ", " (slice 0 3 (skills resumeData))
   ++ ". They have " ++ decimal (List.length (experience resumeData))
   ++ "+ years of experience and hold a "
   ++ match nth_error (education resumeData) 0 with
      | Some edu => degree edu
      | None => "undefined"
      end
   ++ ". Strong technical background with proven experience in software development and modern technologies. Excellent candidate for technical roles requiring "
   ++ join " and " (slice 0 2 (skills resumeData)) ++ " expertise.")%string.

(** [content?.trim()]: [undefined] when the content is nullish, a
    TypeError when it is not a string. *)
Definition optTrim (content : jsval) : completion jsval :=
  match content with
  | JUndefined | JNull => Return JUndefined
  | JStr s => Return (JStr (trim s))
  | _ => Throw
  end.

(** The [try] block of [generateCandidateBrief]; [post] is the outcome
    of the one [axios.post], as in [primaryAttempt]. *)
Definition briefAttempt (post : completion jsval) : completion jsval :=
  response <- post ;;
  content <- messageContent response ;;
  optTrim content.

Definition generateCandidateBrief (this : NLPService) (post : completion jsval)
    (resumeData : CandidateRecord) : jsval :=
  match briefAttempt post with
  | Return brief => brief
  | Throw => JStr (briefTemplate resumeData)
  end.

(** ** A reference decoder for [JSON.parse]

    The JSON grammar of ECMA-404 on a string argument, used to run the
    protocol layer on concrete answers.  An escape [\uXXXX] above U+00FF
    names a code unit outside the alphabet of this development; the
    decoder is meant for texts without such escapes. *)

Definition DQ : ascii := "034"%char.
Definition BS : ascii := "092"%char.

Definition isJsonSpace (c : ascii) : bool :=
  (charCode c =? 32) || (charCode c =? 9) || (charCode c =? 10) || (charCode c =? 13).

Fixpoint skipSpace (s : string) : string :=
  match s with
  | String c s' => if isJsonSpace c then skipSpace s' else s
  | EmptyString => EmptyString
  end.

Definition hexValue (c : ascii) : option nat :=
  if isDigit c then Some (charCode c - 48)
  else if in_range 97 102 c then Some (charCode c - 87)
  else if in_range 65 70 c then Some (charCode c - 55)
  else None.

Definition hex4 (a b c d : ascii) : option nat :=
  match hexValue a, hexValue b, hexValue c, hexValue d with
  | Some x, Some y, Some z, Some w => Some (((x * 16 + y) * 16 + z) * 16 + w)
  | _, _, _, _ => None
  end.

Definition simpleEscape (e : ascii) : option ascii :=
  if Ascii.eqb e DQ then Some DQ
  else if Ascii.eqb e BS then Some BS
  else if Ascii.eqb e "/" then Some "/"%char
  else if Ascii.eqb e "b" then Some "008"%char
  else if Ascii.eqb e "f" then Some "012"%char
  else if Ascii.eqb e "n" then Some "010"%char
  else if Ascii.eqb e "r" then Some "013"%char
  else if Ascii.eqb e "t" then Some "009"%char
  else None.

(** The characters of a string literal after its opening quote, and what
    follows the closing quote. *)
Fixpoint parseString (s : string) : option (string * string) :=
  match s with
  | EmptyString => None
  | String c r =>
      if Ascii.eqb c DQ then Some (EmptyString, r)
      else if Ascii.eqb c BS then
        match r with
        | String e r' =>
            if Ascii.eqb e "u" then
              match r' with
              | String h1 (String h2 (String h3 (String h4 r''))) =>
                  match hex4 h1 h2 h3 h4 with
                  | Some n =>
                      if n <? 256 then
                        match parseString r'' with
                        | Some (str, rest) => Some (String (ascii_of_nat n) str, rest)
                        | None => None
                        end
                      else None
                  | None => None
                  end
              | _ => None
              end
            else
              match simpleEscape e with
              | Some x =>
                  match parseString r' with
                  | Some (str, rest) => Some (String x str, rest)
                  | None => None
                  end
              | None => None
              end
        | EmptyString => None
        end
      else if charCode c <? 32 then None
      else
        match parseString r with
        | Some (str, rest) => Some (String c str, rest)
        | None => None
        end
  end.

(** The digits at the head of [s]: their value, their number, the rest. *)
Fixpoint digitsFrom (acc : N) (count : nat) (s : string) : N * nat * string :=
  match s with
  | String c s' =>
      if isDigit c
      then digitsFrom (acc * 10 + N.of_nat (charCode c - 48))%N (S count) s'
      else (acc, count, s)
  | EmptyString => (acc, count, s)
  end.

Definition parseExponent (s : string) : option (Z * string) :=
  match s with
  | String c s' =>
      if Ascii.eqb c "e" || Ascii.eqb c "E" then
        let '(sign, s'') :=
          match s' with
          | String d t =>
              if Ascii.eqb d "-" then ((-1)%Z, t)
              else if Ascii.eqb d "+" then (1%Z, t)
              else (1%Z, s')
          | EmptyString => (1%Z, s')
          end in
        let '(e, n, rest) := digitsFrom 0%N 0 s'' in
        if n =? 0 then None else Some ((sign * Z.of_N e)%Z, rest)
      else Some (0%Z, s)
  | EmptyString => Some (0%Z, s)
  end.

(** An optional minus, an integer part without a leading zero (or 0
    alone), an optional fraction and an optional exponent. *)
Definition parseNumber (s : string) : option (number * string) :=
  let '(neg, s1) :=
    match s with
    | String c t => if Ascii.eqb c "-" then (true, t) else (false, s)
    | EmptyString => (false, s)
    end in
  let '(int, n, s2) := digitsFrom 0%N 0 s1 in
  if (n =? 0) || ((1 <? n) && startsWith s1 "0") then None
  else
    let fraction :=
      match s2 with
      | String c t =>
          if Ascii.eqb c "." then
            let '(m, k, s3) := digitsFrom int 0 t in
            if k =? 0 then None else Some (m, k, s3)
          else Some (int, 0, s2)
      | EmptyString => Some (int, 0, s2)
      end in
    match fraction with
    | None => None
    | Some (m, k, s3) =>
        match parseExponent s3 with
        | Some (e, rest) => Some (mkNumber neg m (e - Z.of_nat k), rest)
        | None => None
        end
    end.

Definition expect (word : string) (v : jsval) (s : string)
  : option (jsval * string) :=
  if startsWith s word then Some (v, drop (String.length word) s) else None.

Fixpoint parseValue (fuel : nat) (s : string) : option (jsval * string) :=
  match fuel with
  | 0 => None
  | S fuel' =>
      match skipSpace s with
      | EmptyString => None
      | String c r as s' =>
          if Ascii.eqb c "{" then
            match skipSpace r with
            | String d r' =>
                if Ascii.eqb d "}" then Some (JObj [], r')
                else parseMembers fuel' r []
            | EmptyString => None
            end
          else if Ascii.eqb c "[" then
            match skipSpace r with
            | String d r' =>
                if Ascii.eqb d "]" then Some (JArr [], r')
                else parseElements fuel' r []
            | EmptyString => None
            end
          else if Ascii.eqb c DQ then
            match parseString r with
            | Some (str, rest) => Some (JStr str, rest)
            | None => None
            end
          else if Ascii.eqb c "t" then expect "true" (JBool true) s'
          else if Ascii.eqb c "f" then expect "false" (JBool false) s'
          else if Ascii.eqb c "n" then expect "null" JNull s'
          else
            match parseNumber s' with
            | Some (n, rest) => Some (JNum n, rest)
            | None => None
            end
      end
  end
with parseElements (fuel : nat) (s : string) (acc : list jsval)
  : option (jsval * string) :=
  match fuel with
  | 0 => None
  | S fuel' =>
      match parseValue fuel' s with
      | Some (v, r) =>
          match skipSpace r with
          | String c r' =>
              if Ascii.eqb c "," then parseElements fuel' r' (acc ++ [v])
              else if Ascii.eqb c "]" then Some (JArr (acc ++ [v]), r')
              else None
          | EmptyString => None
          end
      | None => None
      end
  end
with parseMembers (fuel : nat) (s : string) (acc : list (string * jsval))
  : option (jsval * string) :=
  match fuel with
  | 0 => None
  | S fuel' =>
      match skipSpace s with
      | String q r =>
          if Ascii.eqb q DQ then
            match parseString r with
            | Some (key, r1) =>
                match skipSpace r1 with
                | String colon r2 =>
                    if Ascii.eqb colon ":" then
                      match parseValue fuel' r2 with
                      | Some (v, r3) =>
                          match skipSpace r3 with
                          | String c r4 =>
                              if Ascii.eqb c ","
                              then parseMembers fuel' r4 (setProp acc key v)
                              else if Ascii.eqb c "}"
                              then Some (JObj (setProp acc key v), r4)
                              else None
                          | EmptyString => None
                          end
                      | None => None
                      end
                    else None
                | EmptyString => None
                end
            | None => None
            end
          else None
      | EmptyString => None
      end
  end.

(** A SyntaxError unless the text is one JSON value between optional
    white space. *)
Definition parseJSON (s : string) : completion jsval :=
  match parseValue (2 * String.length s + 2) s with
  | Some (v, rest) =>
      match skipSpace rest with
      | EmptyString => Return v
      | String _ _ => Throw
      end
  | None => Throw
  end.

Definition referenceParse (v : jsval) : completion jsval :=
  match v with
  | JStr s => parseJSON s
  | _ => Throw
  end.

(** The response object of a completion whose first choice carries
    [content]. *)
Definition completionOf (content : jsval) : jsval :=
  JObj [ ("status", JNum (mkNumber false 200 0));
         ("data", JObj [ ("choices",
                          JArr [ JObj [ ("message",
                                         JObj [ ("role", JStr "assistant");
                                                ("content", content) ]) ] ]) ]) ].

Definition quoted (s : string) : string :=
  (String DQ s ++ String DQ EmptyString)%string.

(** [{"name":"X"}], between its braces and whole. *)
Definition onlyNameBody : string :=
  (quoted "name" ++ ":" ++ quoted "X")%string.

Definition onlyName : string := ("{" ++ onlyNameBody ++ "}")%string.

(** The answer of the specification's sanitisation example: the object
    inside a fenced block between two sentences. *)
Definition fencePrefix : string :=
  ("Here is the result:" ++ String LF "```json" ++ String LF "")%string.

Definition fenceSuffix : string :=
  (String LF "```" ++ String LF "Thanks!")%string.

Definition fencedAnswer : string :=
  (fencePrefix ++ "{" ++ onlyNameBody ++ "}" ++ fenceSuffix)%string.

(** ** Notions of the specification

    The definitions below follow the words of the specification; the
    theorems compare them with the code above. *)

Definition sameLetter (a b : ascii) : bool :=
  Ascii.eqb (lowerChar a) (lowerChar b).

(** [p] is read at the head of [t], letter case apart. *)
Fixpoint occursAtI (t p : string) : bool :=
  match p, t with
  | EmptyString, _ => true
  | String a p', String b t' => sameLetter a b && occursAtI t' p'
  | String _ _, EmptyString => false
  end.

(** [p] is a case-insensitive substring of [t]. *)
Fixpoint occursI (t p : string) : bool :=
  occursAtI t p ||
  match t with
  | EmptyString => false
  | String _ t' => occursI t' p
  end.

(** The taxonomy entries that occur in the text, in taxonomy order, or
    the default triple when there is none. *)
Definition skillsSpec (text : string) : list string :=
  match filter (occursI text) technicalSkills with
  | [] => defaultSkills
  | matched => matched
  end.

(** The segments of a line: what stands between the delimiters, trimmed. *)
Definition segments (line : string) : list string := map trim (split "|" line).

Definition periodLiterals : list string :=
  ["2019"; "2020"; "2021"; "2022"; "2023"; "Present"].

(** A line qualifies as an experience when it holds the delimiter, one of
    the period literals and at least three segments. *)
Definition qualifiesAsExperience (line : string) : bool :=
  includes line "|" && existsb (includes line) periodLiterals &&
  (3 <=? List.length (segments line)).

Definition experienceOfLine (line : string) : ExperienceEntry :=
  {| title := nth 0 (segments line) "";
     company := nth 1 (segments line) "";
     duration := nth 2 (segments line) "";
     description := "Developed and maintained software applications" |}.

(** One entry per qualifying line of the text, in order, or the
    placeholder alone. *)
Definition experienceSpec (text : string) : list ExperienceEntry :=
  match map experienceOfLine (filter qualifiesAsExperience (split LF text)) with
  | [] => [placeholderExperience]
  | entries => entries
  end.

Fixpoint allWhite (s : string) : bool :=
  match s with
  | EmptyString => true
  | String c s' => isWhiteSpace c && allWhite s'
  end.

(** [a] is [b] followed by white space. *)
Definition extends (a b : string) : Prop :=
  exists w, allWhite w = true /\ a = (b ++ w)%string.

Fixpoint noWhite (s : string) : bool :=
  match s with
  | EmptyString => true
  | String c s' => negb (isWhiteSpace c) && noWhite s'
  end.

Fixpoint countDigits (s : string) : nat :=
  match s with
  | EmptyString => 0
  | String c s' => (if isDigit c then 1 else 0) + countDigits s'
  end.

Fixpoint allChars (p : ascii -> bool) (s : string) : bool :=
  match s with
  | EmptyString => true
  | String c s' => p c && allChars p s'
  end.

(** [w] matches the pattern: it splits into one run per atom, each run
    made of accepted characters and of a length within the atom's range. *)
Fixpoint shaped (r : regex) (w : string) : Prop :=
  match r with
  | [] => w = ""
  | a :: r' =>
      exists u v,
        w = (u ++ v)%string /\
        allChars (accepts a) u = true /\
        atLeast a <= String.length u /\
        match atMost a with
        | Some b => String.length u <= b
        | None => True
        end /\
        shaped r' v
  end.

(** [w] occurs in [s] at index [i]. *)
Definition occursAt (s : string) (i : nat) (w : string) : Prop :=
  exists pre post, s = (pre ++ w ++ post)%string /\ String.length pre = i.

Definition isString (v : jsval) : bool :=
  match v with
  | JStr _ => true
  | _ => false
  end.






Definition svc : NLPService := mkService "" "".

(** The value the fallback pipeline gives a field when the text holds no
    signal for it. *)
Definition fallbackDefault (field : string) : jsval :=
  get (toJS (extractFallbackData svc "")) field.

(** The ways the request of the protocol layer fails: the promise is
    rejected (network error, timeout, status outside 2xx); the body was
    not decoded, so [response.data] is its raw text; the sanitised
    content is not JSON. *)
Inductive RequestFails (JSON_parse : jsval -> completion jsval)
  : completion jsval -> Prop :=
  | Rejected : RequestFails JSON_parse Throw
  | UndecodedBody (response : jsval) (body : string) :
      getMember response "data" = Return (JStr body) ->
      RequestFails JSON_parse (Return response)
  | UndecodableContent (response content cleaned : jsval) :
      messageContent response = Return content ->
      cleanJsonResponse content = Return cleaned ->
      JSON_parse cleaned = Throw ->
      RequestFails JSON_parse (Return response).

(** A response whose first choice carries a message without content. *)
Definition completionWithoutContent : jsval :=
  JObj [ ("status", JNum (mkNumber false 200 0));
         ("data", JObj [ ("choices",
                          JArr [ JObj [ ("message",
                                         JObj [ ("role", JStr "assistant") ]) ] ]) ]) ].

(** ** Further notions *)

Definition certificationOf (keyword : string) : string :=
  (keyword ++ " Certification")%string.

(** The keywords that are taxonomy entries as well. *)
Definition sharedKeywords : list string :=
  ["AWS"; "Google Cloud"; "MongoDB"; "Scrum"].

(** A line announces a project: it holds the word, letter case apart, and
    is not the header of a section. *)
Definition qualifiesAsProject (line : string) : bool :=
  occursI line "project" && negb (occursI line "projects:").

(** Every character, in the order of the code units. *)
Definition allAscii : list ascii := map ascii_of_nat (seq 0 256).

(** The record [ensureFields] builds from a decoded value without any of
    the nine fields. *)
Definition sentinelRecord : jsval :=
  JObj [ ("name", JStr "Unknown"); ("email", JStr "unknown@email.com");
         ("phone", JStr "Not provided"); ("linkedin", JStr "");
         ("skills", JArr []); ("experience", JArr []);
         ("education", JArr []); ("certifications", JArr []);
         ("projects", JArr []) ].

(** What [JSON.parse] returns besides objects and [null]. *)
Definition isPrimitiveOrArray (v : jsval) : bool :=
  match v with
  | JBool _ | JNum _ | JStr _ | JArr _ => true
  | _ => false
  end.

(** A well-formed project entry. *)
Definition wellFormedProject (p : ProjectEntry) : Prop :=
  nonEmpty (projectName p) = true /\
  nonEmpty (projectDescription p) = true /\
  1 <= List.length (technologies p) <= 3 /\
  incl (technologies p) technicalSkills.

(** A well-formed education entry. *)
Definition wellFormedEducation (e : EducationEntry) : Prop :=
  In (degree e) ["Bachelor of Science"; "Master of Science"; "Degree"] /\
  includes (school e) "University" = true /\
  year e = "2020" /\ cgpa e = "3.5" /\ stream e = "Computer Science".

(** The record built from the decoded [{"name":"X"}]. *)
Definition recordOfOnlyName : jsval :=
  JObj [ ("name", JStr "X"); ("email", JStr "unknown@email.com");
         ("phone", JStr "Not provided"); ("linkedin", JStr "");
         ("skills", JArr []); ("experience", JArr []);
         ("education", JArr []); ("certifications", JArr []);
         ("projects", JArr []) ].

(** A field free of the delimiter, of line feeds and of white space at
    its ends. *)
Definition cleanField (field : string) : Prop :=
  includes field "|" = false /\
  includes field (String LF "") = false /\
  trim field = field.

(** A line mentions an education, letter case apart. *)
Definition mentionsEducation (line : string) : bool :=
  occursI line "bachelor" || occursI line "master" || occursI line "university".

(** The first line that mentions an education, with the line after it
    (the empty string when it is the last line). *)
Fixpoint firstEducationLine (lines : list string) : option (string * string) :=
  match lines with
  | [] => None
  | line :: rest =>
      if mentionsEducation line then Some (line, hd "" rest)
      else firstEducationLine rest
  end.

(** The entry read from such a line and the line after it. *)
Definition educationOf (line next : string) : EducationEntry :=
  {| degree := if includes line "Bachelor" then "Bachelor of Science"
               else if includes line "Master" then "Master of Science"
               else "Degree";
     school := if includes next "University" then trim next else "University";
     year := "2020";
     cgpa := "3.5";
     stream := "Computer Science" |}.

Definition stringFields : list string := ["name"; "email"; "phone"; "linkedin"].

Definition sequenceFields : list string :=
  ["skills"; "experience"; "education"; "certifications"; "projects"].

(** The parts of a match of the email pattern. *)
Definition emailShaped (w : string) : Prop :=
  exists local domain tld,
    w = (local ++ "@" ++ domain ++ "." ++ tld)%string /\
    1 <= String.length local /\ allChars isWordDotDash local = true /\
    1 <= String.length domain /\ allChars isWordDotDash domain = true /\
    1 <= String.length tld /\ allChars isWord tld = true.

(** The parts of a match of the LinkedIn pattern: the host and path,
    letter case apart, then the handle. *)
Definition linkedinShaped (w : string) : Prop :=
  exists host handle,
    w = (host ++ handle)%string /\
    toLowerCase host = "linkedin.com/in/" /\
    1 <= String.length handle /\ allChars isHandleChar handle = true.


(** A response whose array of choices is empty. *)
Definition completionWithoutChoices : jsval :=
  JObj [ ("status", JNum (mkNumber false 200 0));
         ("data", JObj [ ("choices", JArr []) ]) ].

(** * Properties *)

(** ** Strings *)

Lemma startsWith_lower (t p : string) :
  startsWith (toLowerCase t) (toLowerCase p) = occursAtI t p.
Proof.
  revert t; induction p as [|a p IH]; intros [|b t]; simpl; auto.
  unfold sameLetter; rewrite IH; reflexivity.
Qed.

Lemma includes_lower (t p : string) :
  includes (toLowerCase t) (toLowerCase p) = occursI t p.
Proof.
  induction t as [|b t IH].
  - pose proof (startsWith_lower EmptyString p) as H; simpl in *.
    now rewrite H.
  - pose proof (startsWith_lower (String b t) p) as H; simpl in *.
    now rewrite H, IH.
Qed.

(** A [forEach] that pushes the elements passing a test builds the
    filtered array. *)
Lemma push_loop_filter {A : Type} (test : A -> bool) (l acc : list A) :
  fold_left (fun found x => if test x then found ++ [x] else found) l acc
  = acc ++ filter test l.
Proof.
  revert acc; induction l as [|x l IH]; intros acc; simpl.
  - now rewrite app_nil_r.
  - rewrite IH; destruct (test x); simpl; auto.
    now rewrite <- app_assoc.
Qed.

Lemma foundSkillsOf_filter (text : string) :
  foundSkillsOf text
  = filter (fun skill => includes (toLowerCase text) (toLowerCase skill))
           technicalSkills.
Proof.
  unfold foundSkillsOf; cbv zeta.
  rewrite (push_loop_filter
             (fun skill => includes (toLowerCase text) (toLowerCase skill))).
  apply app_nil_l.
Qed.

(** ** Skill taxonomy matcher *)

(** C6: the skill matcher returns the taxonomy entries that occur in the
    text as case-insensitive substrings, in taxonomy order, and the
    default triple JavaScript, React, Node.js when none occurs. *)
Theorem extractSkillsFromText_spec (text : string) :
  extractSkillsFromText text = skillsSpec text.
Proof.
  unfold extractSkillsFromText, skillsSpec.
  rewrite foundSkillsOf_filter.
  rewrite (filter_ext _ (occursI text) (fun skill => includes_lower text skill)).
  destruct (filter (occursI text) technicalSkills); reflexivity.
Qed.

(** What the matcher returns once some entry was found. *)
Lemma extractSkillsFromText_found (text skill : string) :
  In skill technicalSkills ->
  occursI text skill = true ->
  In skill (extractSkillsFromText text).
Proof.
  intros Hin Hocc.
  rewrite extractSkillsFromText_spec; unfold skillsSpec.
  assert (H : In skill (filter (occursI text) technicalSkills))
    by (apply filter_In; split; assumption).
  destruct (filter (occursI text) technicalSkills); [destruct H | exact H].
Qed.

Lemma sameLetter_refl (a : ascii) : sameLetter a a = true.
Proof. unfold sameLetter; apply Ascii.eqb_refl. Qed.

Lemma startsWith_occursAtI (t p : string) :
  startsWith t p = true -> occursAtI t p = true.
Proof.
  revert t; induction p as [|a p IH]; intros [|b t]; simpl; auto.
  intros H; apply andb_true_iff in H as [Hab Hrest].
  apply Ascii.eqb_eq in Hab; subst b.
  rewrite sameLetter_refl; simpl; auto.
Qed.

Lemma includes_occursI (t p : string) :
  includes t p = true -> occursI t p = true.
Proof.
  induction t as [|b t IH]; simpl; intros H;
    apply orb_true_iff in H as [H|H]; apply orb_true_iff.
  - left; now apply (startsWith_occursAtI EmptyString).
  - discriminate.
  - left; now apply (startsWith_occursAtI (String b t)).
  - right; auto.
Qed.

(** An occurrence of [p ++ q] starts with an occurrence of [p]. *)
Lemma occursAtI_app (t p q : string) :
  occursAtI t (p ++ q) = true -> occursAtI t p = true.
Proof.
  revert t; induction p as [|a p IH]; intros [|b t]; simpl; auto.
  intros H; apply andb_true_iff in H as [Hab Hrest].
  rewrite Hab; simpl; eauto.
Qed.

Lemma occursI_app (t p q : string) :
  occursI t (p ++ q) = true -> occursI t p = true.
Proof.
  induction t as [|b t IH]; simpl; intros H;
    apply orb_true_iff in H as [H|H]; apply orb_true_iff.
  - left; now apply (occursAtI_app EmptyString p q).
  - discriminate.
  - left; now apply (occursAtI_app (String b t) p q).
  - right; auto.
Qed.

(** Letter case of the pattern does not matter to [occursI]. *)
Lemma occursAtI_same (t p q : string) :
  toLowerCase p = toLowerCase q -> occursAtI t p = occursAtI t q.
Proof.
  intros H.
  now rewrite <- (startsWith_lower t p), <- (startsWith_lower t q), H.
Qed.

Lemma occursI_same (t p q : string) :
  toLowerCase p = toLowerCase q -> occursI t p = occursI t q.
Proof.
  intros H.
  now rewrite <- (includes_lower t p), <- (includes_lower t q), H.
Qed.

(** C10: containment being plain, a text with JavaScript is reported
    Java as well, a text with the letter c or C is reported C, a text
    with r or R is reported R, and the default triple comes back only
    for a text with none of these four letters. *)
Theorem substring_skills_reported (text : string) :
  (includes text "JavaScript" = true -> In "Java" (extractSkillsFromText text)) /\
  (includes text "c" = true \/ includes text "C" = true ->
   In "C" (extractSkillsFromText text)) /\
  (includes text "r" = true \/ includes text "R" = true ->
   In "R" (extractSkillsFromText text)) /\
  (extractSkillsFromText text = defaultSkills ->
   includes text "c" = false /\ includes text "C" = false /\
   includes text "r" = false /\ includes text "R" = false).
Proof.
  assert (HC : includes text "c" = true \/ includes text "C" = true ->
               In "C" (extractSkillsFromText text)).
  { intros H; apply extractSkillsFromText_found.
    - unfold technicalSkills; simpl; tauto.
    - destruct H as [H|H]; apply includes_occursI in H;
        [rewrite (occursI_same text "C" "c") by reflexivity|]; exact H. }
  assert (HR : includes text "r" = true \/ includes text "R" = true ->
               In "R" (extractSkillsFromText text)).
  { intros H; apply extractSkillsFromText_found.
    - unfold technicalSkills; simpl; tauto.
    - destruct H as [H|H]; apply includes_occursI in H;
        [rewrite (occursI_same text "R" "r") by reflexivity|]; exact H. }
  assert (HnC : ~ In "C" defaultSkills)
    by (unfold defaultSkills; simpl; intros [H|[H|[H|[]]]]; discriminate H).
  assert (HnR : ~ In "R" defaultSkills)
    by (unfold defaultSkills; simpl; intros [H|[H|[H|[]]]]; discriminate H).
  split; [|split; [exact HC|split; [exact HR|]]].
  - intros H; apply extractSkillsFromText_found.
    + unfold technicalSkills; simpl; tauto.
    + apply includes_occursI in H.
      rewrite (occursI_same text "JavaScript" "javascript") in H by reflexivity.
      rewrite (occursI_same text "Java" "java") by reflexivity.
      exact (occursI_app text "java" "script" H).
  - intros Hd.
    assert (noC : forall p, In p ["c"; "C"] -> includes text p = false).
    { intros p Hp; destruct (includes text p) eqn:E; [exfalso|reflexivity].
      apply HnC; rewrite <- Hd; apply HC.
      destruct Hp as [<-|[<-|[]]]; [left|right]; exact E. }
    assert (noR : forall p, In p ["r"; "R"] -> includes text p = false).
    { intros p Hp; destruct (includes text p) eqn:E; [exfalso|reflexivity].
      apply HnR; rewrite <- Hd; apply HR.
      destruct Hp as [<-|[<-|[]]]; [left|right]; exact E. }
    split; [apply noC; simpl; tauto|].
    split; [apply noC; simpl; tauto|].
    split; [apply noR; simpl; tauto|apply noR; simpl; tauto].
Qed.

(** ** Fallback pipeline *)

(** C5: on the empty text the fallback pipeline returns the sentinels,
    the default skill triple, one placeholder experience, education and
    project, and no certification. *)
Theorem extractFallbackData_empty (this : NLPService) :
  extractFallbackData this ""
  = {| name := "Unknown";
       email := "unknown@email.com";
       phone := "Not provided";
       linkedin := "";
       skills := ["JavaScript"; "React"; "Node.js"];
       experience :=
         [ {| title := "Software Engineer";
              company := "Tech Company";
              duration := "2021 - Present";
              description := "Developed web applications using modern technologies" |} ];
       education :=
         [ {| degree := "Bachelor of Science";
              school := "University";
              year := "2020";
              cgpa := "3.5";
              stream := "Computer Science" |} ];
       certifications := [];
       projects :=
         [ {| projectName := "Web Application";
              projectDescription := "Built a full-stack web application";
              technologies := ["React"; "Node.js"; "MongoDB"] |} ] |}.
Proof. vm_compute. reflexivity. Qed.

(** ** Trimming and splitting *)

Lemma append_nil_r (s : string) : (s ++ "")%string = s.
Proof. induction s; simpl; congruence. Qed.

Lemma append_assoc (a b c : string) :
  ((a ++ b) ++ c)%string = (a ++ (b ++ c))%string.
Proof. induction a; simpl; congruence. Qed.

Lemma length_append (a b : string) :
  String.length (a ++ b) = String.length a + String.length b.
Proof. induction a; simpl; auto. Qed.

Lemma allWhite_append (a b : string) :
  allWhite (a ++ b) = allWhite a && allWhite b.
Proof.
  induction a as [|c a IH]; simpl; auto.
  now rewrite IH, andb_assoc.
Qed.

Lemma trimStart_white (w : string) : allWhite w = true -> trimStart w = "".
Proof.
  induction w as [|c w IH]; simpl; auto.
  intros H; apply andb_true_iff in H as [Hc Hw]; rewrite Hc; auto.
Qed.

Lemma trimEnd_white (w : string) : allWhite w = true -> trimEnd w = "".
Proof.
  induction w as [|c w IH]; simpl; auto.
  intros H; apply andb_true_iff in H as [Hc Hw]; rewrite (IH Hw), Hc; auto.
Qed.

Lemma trimStart_decompose (s : string) :
  exists w, allWhite w = true /\ s = (w ++ trimStart s)%string.
Proof.
  induction s as [|c s [w [Hw Hs]]]; simpl.
  - exists ""; auto.
  - destruct (isWhiteSpace c) eqn:Hc.
    + exists (String c w); simpl; rewrite Hc, Hw; split; [reflexivity|].
      f_equal; exact Hs.
    + exists ""; auto.
Qed.

Lemma trimEnd_decompose (s : string) :
  exists w, allWhite w = true /\ s = (trimEnd s ++ w)%string.
Proof.
  induction s as [|c s [w [Hw Hs]]]; simpl.
  - exists ""; auto.
  - destruct (trimEnd s) as [|d r] eqn:Hr.
    + simpl in Hs; subst w.
      destruct (isWhiteSpace c) eqn:Hc.
      * exists (String c s); simpl; rewrite Hc, Hw; auto.
      * exists s; auto.
    + exists w; split; auto; simpl; f_equal; exact Hs.
Qed.

(** A line is its trimmed form between two runs of white space. *)
Lemma trim_decompose (s : string) :
  exists w1 w2, allWhite w1 = true /\ allWhite w2 = true /\
                s = (w1 ++ (trim s ++ w2))%string.
Proof.
  destruct (trimStart_decompose s) as [w1 [H1 Hs]].
  destruct (trimEnd_decompose (trimStart s)) as [w2 [H2 Ht]].
  exists w1, w2; repeat split; auto.
  unfold trim; rewrite <- Ht; exact Hs.
Qed.

Lemma trimStart_white_append (w t : string) :
  allWhite w = true -> trimStart (w ++ t) = trimStart t.
Proof.
  induction w as [|c w IH]; simpl; auto.
  intros H; apply andb_true_iff in H as [Hc Hw]; rewrite Hc; auto.
Qed.

Lemma trimStart_append_white (b w : string) :
  allWhite w = true ->
  exists w', allWhite w' = true /\ trimStart (b ++ w) = (trimStart b ++ w')%string.
Proof.
  intros Hw; induction b as [|c b IH]; simpl.
  - exists ""; split; auto. apply trimStart_white; exact Hw.
  - destruct (isWhiteSpace c); [exact IH | exists w; auto].
Qed.

Lemma trimEnd_append_white (x w : string) :
  allWhite w = true -> trimEnd (x ++ w) = trimEnd x.
Proof.
  intros Hw; induction x as [|c x IH]; simpl.
  - apply trimEnd_white; exact Hw.
  - rewrite IH; reflexivity.
Qed.

Lemma trim_white_append (w t : string) :
  allWhite w = true -> trim (w ++ t) = trim t.
Proof. intros H; unfold trim; now rewrite trimStart_white_append. Qed.

Lemma trim_append_white (b w : string) :
  allWhite w = true -> trim (b ++ w) = trim b.
Proof.
  intros H; unfold trim.
  destruct (trimStart_append_white b w H) as [w' [Hw' ->]].
  now apply trimEnd_append_white.
Qed.

Lemma includes_nil (t : string) : includes t "" = true.
Proof. destruct t; reflexivity. Qed.

Lemma white_not_head (c a : ascii) (p : string) :
  isWhiteSpace c = true -> noWhite (String a p) = true -> Ascii.eqb a c = false.
Proof.
  simpl; intros Hc H; apply andb_true_iff in H as [Ha _].
  destruct (Ascii.eqb_spec a c) as [->|]; auto.
  rewrite Hc in Ha; discriminate.
Qed.

Lemma includes_white_append (w t p : string) :
  allWhite w = true -> noWhite p = true ->
  includes (w ++ t) p = includes t p.
Proof.
  intros Hw Hp; induction w as [|c w IH]; simpl; auto.
  simpl in Hw; apply andb_true_iff in Hw as [Hc Hw].
  destruct p as [|a p].
  - simpl; now rewrite includes_nil.
  - rewrite (white_not_head c a p Hc Hp); simpl; auto.
Qed.

Lemma startsWith_append_white (t w p : string) :
  allWhite w = true -> noWhite p = true ->
  startsWith (t ++ w) p = startsWith t p.
Proof.
  intros Hw; revert p; induction t as [|b t IH]; intros p Hp.
  - simpl; destruct p as [|a p]; [destruct w; reflexivity|].
    destruct w as [|c w]; auto.
    simpl in Hw; apply andb_true_iff in Hw as [Hc _].
    simpl; now rewrite (white_not_head c a p Hc Hp).
  - destruct p as [|a p]; auto.
    simpl in *; apply andb_true_iff in Hp as [_ Hp].
    now rewrite IH.
Qed.

Lemma includes_append_white (t w p : string) :
  allWhite w = true -> noWhite p = true ->
  includes (t ++ w) p = includes t p.
Proof.
  intros Hw Hp; induction t as [|b t IH].
  - pose proof (includes_white_append w "" p Hw Hp) as H.
    now rewrite append_nil_r in H.
  - pose proof (startsWith_append_white (String b t) w p Hw Hp) as H.
    simpl in *; now rewrite H, IH.
Qed.

(** Trimming a line does not change what it includes, for a pattern free
    of white space. *)
Lemma includes_trim (s p : string) :
  noWhite p = true -> includes (trim s) p = includes s p.
Proof.
  intros Hp; destruct (trim_decompose s) as [w1 [w2 [H1 [H2 Hs]]]].
  rewrite Hs at 2.
  now rewrite includes_white_append, includes_append_white.
Qed.

Lemma split_nonempty (sep : ascii) (s : string) : split sep s <> [].
Proof.
  induction s as [|c s IH]; simpl; [discriminate|].
  destruct (Ascii.eqb c sep); [discriminate|].
  destruct (split sep s); discriminate.
Qed.

Lemma split_white (sep : ascii) (w : string) :
  isWhiteSpace sep = false -> allWhite w = true -> split sep w = [w].
Proof.
  intros Hsep; induction w as [|c w IH]; simpl; auto.
  intros H; apply andb_true_iff in H as [Hc Hw].
  destruct (Ascii.eqb_spec c sep) as [->|]; [congruence|].
  now rewrite (IH Hw).
Qed.

Lemma segments_white_append (sep : ascii) (w t : string) :
  isWhiteSpace sep = false -> allWhite w = true ->
  map trim (split sep (w ++ t)) = map trim (split sep t).
Proof.
  intros Hsep; induction w as [|c w IH]; simpl; auto.
  intros H; apply andb_true_iff in H as [Hc Hw].
  destruct (Ascii.eqb_spec c sep) as [->|]; [congruence|].
  rewrite <- (IH Hw).
  destruct (split sep (w ++ t)) as [|h tl] eqn:E.
  - now apply split_nonempty in E.
  - simpl; f_equal.
    apply (trim_white_append (String c "") h); simpl; now rewrite Hc.
Qed.

Lemma split_append_white (sep : ascii) (t w : string) :
  isWhiteSpace sep = false -> allWhite w = true ->
  Forall2 extends (split sep (t ++ w)) (split sep t).
Proof.
  intros Hsep Hw; induction t as [|c t IH]; simpl.
  - rewrite (split_white sep w Hsep Hw).
    constructor; [exists w; auto | constructor].
  - destruct (Ascii.eqb c sep).
    + constructor; [exists ""; auto | exact IH].
    + destruct (split sep (t ++ w)) as [|h tl]; destruct (split sep t) as [|h' tl'];
        inversion IH as [|? ? ? ? [x [Hx Hh]] Htl]; subst.
      * constructor; [exists ""; auto | constructor].
      * constructor; [exists x; split; auto | exact Htl].
Qed.

Lemma segments_append_white (sep : ascii) (t w : string) :
  isWhiteSpace sep = false -> allWhite w = true ->
  map trim (split sep (t ++ w)) = map trim (split sep t).
Proof.
  intros Hsep Hw.
  induction (split_append_white sep t w Hsep Hw) as [|a b l l' [x [Hx ->]] _ IH];
    simpl; auto.
  now rewrite IH, trim_append_white.
Qed.

(** Trimming a line does not change its segments. *)
Lemma segments_trim (s : string) : segments (trim s) = segments s.
Proof.
  unfold segments.
  destruct (trim_decompose s) as [w1 [w2 [H1 [H2 Hs]]]].
  rewrite Hs at 2.
  rewrite segments_white_append, segments_append_white; auto.
Qed.

Lemma mentionsPeriod_trim (s : string) :
  mentionsPeriod (trim s) = existsb (includes s) periodLiterals.
Proof.
  unfold mentionsPeriod, periodLiterals, existsb.
  rewrite !includes_trim by reflexivity.
  now rewrite orb_false_r, !orb_assoc.
Qed.

(** ** Experience extractor *)

Lemma qualifiesAsExperience_trim (raw : string) :
  qualifiesAsExperience raw
  = includes (trim raw) "|" && mentionsPeriod (trim raw) &&
    (3 <=? List.length (segments (trim raw))).
Proof.
  unfold qualifiesAsExperience.
  now rewrite mentionsPeriod_trim, includes_trim, segments_trim.
Qed.

Lemma experienceLoop_spec (lines : list string) (acc : list ExperienceEntry) :
  experienceLoop lines acc
  = acc ++ map experienceOfLine (filter qualifiesAsExperience lines).
Proof.
  revert acc; induction lines as [|raw rest IH]; intros acc.
  - simpl; now rewrite app_nil_r.
  - cbn [experienceLoop filter].
    rewrite qualifiesAsExperience_trim.
    fold (segments (trim raw)).
    destruct (includes (trim raw) "|" && mentionsPeriod (trim raw)); cbn [andb].
    + destruct (3 <=? List.length (segments (trim raw))); cbn [map].
      * rewrite IH, <- app_assoc.
        unfold experienceOfLine; rewrite segments_trim; reflexivity.
      * apply IH.
    + apply IH.
Qed.

(** C7: the experience extractor returns one entry per line that holds
    the delimiter, a period literal (2019 to 2023 or Present) and at
    least three trimmed segments, with title, company and duration the
    segments 0, 1 and 2 and the fixed description; lines with fewer
    segments are ignored; when no line qualifies it returns the one
    placeholder entry. *)
Theorem extractExperienceFromText_spec (text : string) :
  extractExperienceFromText text = experienceSpec text.
Proof.
  unfold extractExperienceFromText, experienceSpec.
  rewrite experienceLoop_spec; cbn [app].
  destruct (map experienceOfLine (filter qualifiesAsExperience (split LF text)));
    reflexivity.
Qed.

(** ** The matcher *)

Lemma take_drop (n : nat) (s : string) : (take n s ++ drop n s)%string = s.
Proof.
  revert s; induction n as [|n IH]; intros [|c s]; simpl; auto.
  now rewrite IH.
Qed.

Lemma length_take (n : nat) (s : string) :
  n <= String.length s -> String.length (take n s) = n.
Proof.
  revert s; induction n as [|n IH]; intros [|c s]; simpl; auto; try lia.
  intros H; rewrite IH; lia.
Qed.

Lemma length_drop (n : nat) (s : string) :
  String.length (drop n s) = String.length s - n.
Proof. revert s; induction n as [|n IH]; intros [|c s]; simpl; auto. Qed.

Lemma drop_drop (j m : nat) (s : string) : drop m (drop j s) = drop (j + m) s.
Proof.
  revert s; induction j as [|j IH]; intros s; simpl; auto.
  destruct s as [|c s]; auto.
  destruct m; reflexivity.
Qed.

Lemma take_add (j m : nat) (s : string) :
  take (j + m) s = (take j s ++ take m (drop j s))%string.
Proof.
  revert s; induction j as [|j IH]; intros s; simpl; auto.
  destruct s as [|c s]; simpl.
  - destruct m; reflexivity.
  - now rewrite IH.
Qed.

Lemma drop_append (u t : string) : drop (String.length u) (u ++ t) = t.
Proof. induction u; simpl; auto. Qed.

Lemma take_append (u t : string) : take (String.length u) (u ++ t) = u.
Proof.
  induction u as [|c u IH]; simpl; [destruct t; reflexivity|].
  now rewrite IH.
Qed.

Lemma allChars_append (p : ascii -> bool) (a b : string) :
  allChars p (a ++ b) = allChars p a && allChars p b.
Proof.
  induction a as [|c a IH]; simpl; auto.
  now rewrite IH, andb_assoc.
Qed.

(** Any count up to [run] is a count of accepted characters within the
    bound. *)
Lemma run_sound (p : ascii -> bool) (bound : option nat) (s : string) (j : nat) :
  j <= run p bound s ->
  j <= String.length s /\ allChars p (take j s) = true /\
  match bound with Some b => j <= b | None => True end.
Proof.
  revert bound j; induction s as [|c s IH]; intros bound j H; simpl in H.
  - assert (j = 0) by lia; subst; destruct bound; simpl; repeat split; lia.
  - destruct j as [|j]; [destruct bound; simpl; repeat split; lia|].
    destruct bound as [[|b]|]; try lia;
      destruct (p c) eqn:Hc; try lia; apply le_S_n in H;
      destruct (IH _ _ H) as [H1 [H2 H3]]; simpl; rewrite Hc, H2;
      repeat split; auto; lia.
Qed.

Lemma run_complete (p : ascii -> bool) (bound : option nat) (u t : string) :
  allChars p u = true ->
  match bound with Some b => String.length u <= b | None => True end ->
  String.length u <= run p bound (u ++ t).
Proof.
  revert bound; induction u as [|c u IH]; intros bound Hu Hb; simpl; [lia|].
  simpl in Hu; apply andb_true_iff in Hu as [Hc Hu]; rewrite Hc.
  destruct bound as [[|b]|]; simpl in Hb; try lia.
  - apply le_n_S, IH; simpl; auto; lia.
  - apply le_n_S, IH; simpl; auto.
Qed.

Lemma backtrack_eq (rest : string -> option nat) (s : string) (lo k : nat) :
  backtrack rest s lo k
  = if k <? lo then None
    else match rest (drop k s) with
         | Some m => Some (k + m)
         | None => match k with
                   | 0 => None
                   | S k' => backtrack rest s lo k'
                   end
         end.
Proof. destruct k; reflexivity. Qed.

Lemma backtrack_sound (rest : string -> option nat) (s : string) (lo k n : nat) :
  backtrack rest s lo k = Some n ->
  exists j m, lo <= j /\ j <= k /\ rest (drop j s) = Some m /\ n = j + m.
Proof.
  induction k as [|k IH]; rewrite backtrack_eq.
  - destruct (0 <? lo) eqn:E; [discriminate|].
    apply Nat.ltb_ge in E.
    destruct (rest (drop 0 s)) as [m|] eqn:Em; [|discriminate].
    intros [= <-]; exists 0, m; repeat split; auto.
  - destruct (S k <? lo) eqn:E; [discriminate|].
    apply Nat.ltb_ge in E.
    destruct (rest (drop (S k) s)) as [m|] eqn:Em.
    + intros [= <-]; exists (S k), m; repeat split; auto.
    + intros H; destruct (IH H) as [j [m [H1 [H2 [H3 H4]]]]].
      exists j, m; repeat split; auto.
Qed.

Lemma backtrack_complete (rest : string -> option nat) (s : string) (lo k j : nat) :
  lo <= j -> j <= k -> rest (drop j s) <> None ->
  backtrack rest s lo k <> None.
Proof.
  intros Hlo; induction k as [|k IH]; intros Hk Hj; rewrite backtrack_eq.
  - assert (j = 0) by lia; subst; assert (lo = 0) by lia; subst.
    change (0 <? 0) with false; cbv iota.
    destruct (rest (drop 0 s)); [discriminate | exact Hj].
  - assert (E : (S k <? lo) = false) by (apply Nat.ltb_ge; lia).
    rewrite E.
    destruct (rest (drop (S k) s)) as [m|] eqn:Em; [discriminate|].
    apply IH; auto.
    assert (j <> S k) by (intros ->; congruence); lia.
Qed.

(** What [matchHere] returns is the length of a prefix that matches. *)
Lemma matchHere_sound (r : regex) (s : string) (n : nat) :
  matchHere r s = Some n -> n <= String.length s /\ shaped r (take n s).
Proof.
  revert s n; induction r as [|a r IH]; intros s n; simpl.
  - intros [= <-]; split; [lia | destruct s; reflexivity].
  - intros H; apply backtrack_sound in H as [j [m [H1 [H2 [H3 ->]]]]].
    apply run_sound in H2 as [Hj [Hall Hb]].
    apply IH in H3 as [Hm Hshape].
    rewrite length_drop in Hm.
    split; [lia|].
    exists (take j s), (take m (drop j s)).
    rewrite length_take by exact Hj.
    repeat split; auto using take_add.
Qed.

(** [matchHere] finds a match whenever some prefix matches. *)
Lemma matchHere_complete (r : regex) (w t : string) :
  shaped r w -> matchHere r (w ++ t) <> None.
Proof.
  revert w t; induction r as [|a r IH]; intros w t; simpl.
  - discriminate.
  - intros [u [v [-> [Hall [Hlo [Hhi Hv]]]]]].
    rewrite append_assoc.
    apply (backtrack_complete _ _ _ _ (String.length u)); auto.
    + apply run_complete; auto.
    + rewrite drop_append; apply IH; exact Hv.
Qed.

Lemma searchFrom_spec (r : regex) (s : string) (i0 : nat) :
  match searchFrom r s i0 with
  | Some (i, n) =>
      exists k, i = i0 + k /\ k <= String.length s /\
                matchHere r (drop k s) = Some n /\
                forall j, j < k -> matchHere r (drop j s) = None
  | None => forall j, j <= String.length s -> matchHere r (drop j s) = None
  end.
Proof.
  revert i0; induction s as [|c s IH]; intros i0; simpl.
  - destruct (matchHere r "") as [n|] eqn:E.
    + exists 0; repeat split; auto; lia.
    + intros j _; destruct j; exact E.
  - destruct (matchHere r (String c s)) as [n|] eqn:E.
    + exists 0; repeat split; auto; lia.
    + specialize (IH (S i0)); destruct (searchFrom r s (S i0)) as [[i n]|].
      * destruct IH as [k [-> [Hk [Hm Hnone]]]].
        exists (S k); repeat split; auto; try lia.
        intros [|j] Hj; [exact E | apply Hnone; lia].
      * intros [|j] Hj; [exact E | apply IH; lia].
Qed.

Lemma occursAt_drop (s : string) (i : nat) (w : string) :
  occursAt s i w -> exists post, drop i s = (w ++ post)%string.
Proof.
  intros [pre [post [-> <-]]]; exists post; apply drop_append.
Qed.

(** [s.match(r)] returns the leftmost match, and [null] only when no
    substring matches. *)
Lemma regexMatch_spec (r : regex) (s : string) :
  match regexMatch r s with
  | Some w =>
      shaped r w /\
      exists i, occursAt s i w /\
                forall i' w', occursAt s i' w' -> shaped r w' -> i <= i'
  | None => forall i w, occursAt s i w -> ~ shaped r w
  end.
Proof.
  unfold regexMatch, search.
  pose proof (searchFrom_spec r s 0) as H.
  destruct (searchFrom r s 0) as [[i n]|].
  - destruct H as [k [-> [Hk [Hm Hnone]]]]; simpl.
    apply matchHere_sound in Hm as [Hn Hshape].
    split; [exact Hshape|].
    exists k; split.
    + exists (take k s), (drop n (drop k s)); split.
      * now rewrite take_drop, take_drop.
      * now apply length_take.
    + intros i' w' Hocc Hw'.
      destruct (Nat.le_gt_cases k i') as [|Hlt]; auto.
      apply occursAt_drop in Hocc as [post Hpost].
      pose proof (matchHere_complete r w' post Hw') as Hc.
      rewrite <- Hpost, (Hnone i' Hlt) in Hc; congruence.
  - intros i w Hocc Hw.
    assert (Hi : i <= String.length s).
    { destruct Hocc as [pre [post [-> <-]]]; rewrite length_append; lia. }
    apply occursAt_drop in Hocc as [post Hpost].
    pose proof (matchHere_complete r w post Hw) as Hc.
    rewrite <- Hpost, (H i Hi) in Hc; congruence.
Qed.

(** ** Contact extractor *)

Lemma phone_of_match (this : NLPService) (text : string) :
  phone (extractFallbackData this text)
  = match regexMatch phonePattern text with
    | Some w => w
    | None => "Not provided"
    end.
Proof. reflexivity. Qed.

(** A match of the phone pattern: at most three leading characters, then
    ten or more characters of the class of digits and separators. *)
Lemma shaped_phone (w : string) :
  shaped phonePattern w ->
  exists lead body,
    w = (lead ++ body)%string /\ String.length lead <= 3 /\
    10 <= String.length body /\ allChars isPhoneChar body = true.
Proof.
  intros (u1 & v1 & -> & _ & _ & L1 & H).
  destruct H as (u2 & v2 & -> & _ & _ & L2 & H).
  destruct H as (u3 & v3 & -> & _ & _ & L3 & H).
  destruct H as (u4 & v4 & -> & A4 & L4 & _ & ->).
  simpl in L1, L2, L3, L4.
  exists (u1 ++ (u2 ++ u3))%string, u4; repeat split; auto.
  - now rewrite append_nil_r, !append_assoc.
  - rewrite !length_append; lia.
Qed.

(** C8, as the code has it: the phone is the sentinel exactly when no
    substring of the text matches the pattern, and otherwise the leftmost
    match; a match ends with ten or more characters that are digits,
    white space, hyphens or parentheses, after at most three leading
    characters.  Ten digits are not required. *)
Theorem phone_spec (this : NLPService) (text : string) :
  match regexMatch phonePattern text with
  | None =>
      phone (extractFallbackData this text) = "Not provided" /\
      forall i w, occursAt text i w -> ~ shaped phonePattern w
  | Some w =>
      phone (extractFallbackData this text) = w /\
      shaped phonePattern w /\
      (exists i, occursAt text i w /\
                 forall i' w', occursAt text i' w' -> shaped phonePattern w' ->
                               i <= i') /\
      exists lead body,
        w = (lead ++ body)%string /\ String.length lead <= 3 /\
        10 <= String.length body /\ allChars isPhoneChar body = true
  end.
Proof.
  rewrite phone_of_match.
  pose proof (regexMatch_spec phonePattern text) as H.
  destruct (regexMatch phonePattern text) as [w|].
  - destruct H as [Hshape Hleft].
    repeat split; auto using shaped_phone.
  - split; [reflexivity | exact H].
Qed.

(** C8, as the claim has it, fails: the span of years of this line is the
    leftmost match and holds eight digits. *)
Lemma phone_with_eight_digits :
  regexMatch phonePattern "Engineer, 2019 - 2021" = Some " 2019 - 2021" /\
  phone (extractFallbackData svc "Engineer, 2019 - 2021") = " 2019 - 2021" /\
  countDigits " 2019 - 2021" = 8.
Proof. vm_compute; repeat split. Qed.

(** ** Protocol layer *)

Section ProtocolProperties.

Variable JSON_parse : jsval -> completion jsval.

Lemma extractResumeData_Throw (this : NLPService) (post : completion jsval)
    (text : string) :
  primaryAttempt JSON_parse post = Throw ->
  extractResumeData JSON_parse this post text
  = toJS (extractFallbackData this text).
Proof. unfold extractResumeData; intros ->; reflexivity. Qed.


(** Each way of failing makes the [try] block throw. *)
Lemma RequestFails_Throw (post : completion jsval) :
  RequestFails JSON_parse post -> primaryAttempt JSON_parse post = Throw.
Proof.
  intros [ | response body Hdata | response content cleaned Hc Hclean Hparse];
    unfold primaryAttempt; cbn [bind].
  - reflexivity.
  - unfold messageContent; rewrite Hdata; reflexivity.
  - rewrite Hc; cbn [bind]; rewrite Hclean; cbn [bind]; rewrite Hparse;
      reflexivity.
Qed.

End ProtocolProperties.

(** C3: when the request fails (rejected promise, body left undecoded,
    sanitised content that is not JSON), [extractResumeData] returns the
    record of [extractFallbackData] on the same text, whole: the [try]
    block has produced no record to merge with. *)
Theorem failure_delegates_to_fallback
    (JSON_parse : jsval -> completion jsval) (this : NLPService)
    (post : completion jsval) (text : string) :
  RequestFails JSON_parse post ->
  primaryAttempt JSON_parse post = Throw /\
  extractResumeData JSON_parse this post text
  = toJS (extractFallbackData this text).
Proof.
  intros H; apply RequestFails_Throw in H.
  split; [exact H | now apply extractResumeData_Throw].
Qed.

Lemma failure_delegates_to_fallback_witness :
  primaryAttempt referenceParse (Return (completionOf (JStr "Sorry, no resume found."))) = Throw /\
  extractResumeData referenceParse svc
    (Return (completionOf (JStr "Sorry, no resume found."))) "Jane Doe"
  = toJS (extractFallbackData svc "Jane Doe").
Proof.
  apply (failure_delegates_to_fallback referenceParse svc
           (Return (completionOf (JStr "Sorry, no resume found."))) "Jane Doe").
  apply (UndecodableContent referenceParse _
           (JStr "Sorry, no resume found.") (JStr "Sorry, no resume found."));
    reflexivity.
Defined.

(** ** Candidate brief generator *)

Lemma briefTemplate_nonEmpty (resumeData : CandidateRecord) :
  nonEmpty (briefTemplate resumeData) = true.
Proof.
  unfold briefTemplate; destruct (name resumeData); reflexivity.
Qed.

(** The brief, case by case: the templated sentence, which is never
    empty, when the request is rejected, when reading the content throws
    (a response without data or without choices) or when the content is
    neither a string nor missing; the trimmed content when the content
    is a string, be it empty; [undefined] when the content is missing or
    [null], as it is with an empty array of choices. *)
Theorem generateCandidateBrief_spec (this : NLPService)
    (post : completion jsval) (resumeData : CandidateRecord) :
  nonEmpty (briefTemplate resumeData) = true /\
  generateCandidateBrief this post resumeData
  = match post with
    | Throw => JStr (briefTemplate resumeData)
    | Return response =>
        match messageContent response with
        | Throw => JStr (briefTemplate resumeData)
        | Return (JStr content) => JStr (trim content)
        | Return JUndefined | Return JNull => JUndefined
        | Return _ => JStr (briefTemplate resumeData)
        end
    end.
Proof.
  split; [apply briefTemplate_nonEmpty|].
  unfold generateCandidateBrief, briefAttempt.
  destruct post as [response|]; cbn [bind]; [|reflexivity].
  destruct (messageContent response) as [[| | | | | |]|]; reflexivity.
Qed.

(** A message without content, or with blank content, does not lead to
    the templated sentence. *)
Lemma brief_without_content :
  generateCandidateBrief svc (Return completionWithoutContent)
    (extractFallbackData svc "")
  = JUndefined /\
  generateCandidateBrief svc (Return (completionOf (JStr "   ")))
    (extractFallbackData svc "")
  = JStr "".
Proof. split; reflexivity. Qed.

(** C4: the code does not do what the claim asks.  On a response whose
    message has no content, whose content is [null] or whose array of
    choices is empty, the optional chaining ends in [undefined] without
    throwing, so the [catch] block and its templated sentence are not
    reached and the brief is [undefined]; on the same response the
    sibling [extractResumeData] does fall back. *)
Theorem brief_undefined_on_missing_content :
  generateCandidateBrief svc (Return completionWithoutContent)
    (extractFallbackData svc "")
  = JUndefined /\
  generateCandidateBrief svc (Return (completionOf JNull))
    (extractFallbackData svc "")
  = JUndefined /\
  generateCandidateBrief svc (Return completionWithoutChoices)
    (extractFallbackData svc "")
  = JUndefined /\
  nonEmpty (briefTemplate (extractFallbackData svc "")) = true /\
  extractResumeData referenceParse svc (Return completionWithoutContent) ""
  = toJS (extractFallbackData svc "").
Proof. repeat split; reflexivity. Qed.

(** ** Populated records *)

Lemma orElse_nonEmpty (x : option string) (d : string) :
  nonEmpty d = true -> nonEmpty (orElse x d) = true.
Proof.
  intros Hd; unfold orElse; destruct x as [s|]; auto.
  destruct (nonEmpty s) eqn:E; auto.
Qed.

Lemma nonEmpty_length (s : string) : 1 <= String.length s -> nonEmpty s = true.
Proof. destruct s; simpl; [lia | reflexivity]. Qed.

(** A match is not empty when the first atom asks for a character. *)
Lemma shaped_nonEmpty (a : atom) (r : regex) (w : string) :
  1 <= atLeast a -> shaped (a :: r) w -> nonEmpty w = true.
Proof.
  intros Ha (u & v & -> & _ & Hu & _).
  apply nonEmpty_length; rewrite length_append; lia.
Qed.

Lemma email_nonEmpty (this : NLPService) (text : string) :
  nonEmpty (email (extractFallbackData this text)) = true.
Proof.
  change (email (extractFallbackData this text))
    with (match regexMatch emailPattern text with
          | Some m => m
          | None => "unknown@email.com"
          end).
  pose proof (regexMatch_spec emailPattern text) as H.
  destruct (regexMatch emailPattern text) as [w|]; [|reflexivity].
  destruct H as [Hshape _].
  apply (shaped_nonEmpty _ _ w) in Hshape; auto.
Qed.

Lemma phone_nonEmpty (this : NLPService) (text : string) :
  nonEmpty (phone (extractFallbackData this text)) = true.
Proof.
  pose proof (phone_spec this text) as H.
  destruct (regexMatch phonePattern text) as [w|].
  - destruct H as (-> & _ & _ & lead & body & -> & _ & Hb & _).
    apply nonEmpty_length; rewrite length_append; lia.
  - destruct H as [-> _]; reflexivity.
Qed.

Lemma name_nonEmpty (this : NLPService) (text : string) :
  nonEmpty (name (extractFallbackData this text)) = true.
Proof. apply orElse_nonEmpty; reflexivity. Qed.

Lemma skills_nonEmpty (text : string) : extractSkillsFromText text <> [].
Proof.
  rewrite extractSkillsFromText_spec; unfold skillsSpec.
  destruct (filter (occursI text) technicalSkills); discriminate.
Qed.








Lemma primaryAttempt_Return (JSON_parse : jsval -> completion jsval)
    (post : completion jsval) (record : jsval) :
  primaryAttempt JSON_parse post = Return record ->
  exists parsedData, ensureFields parsedData = Return record.
Proof.
  unfold primaryAttempt.
  destruct post as [response|]; cbn [bind]; [|discriminate].
  destruct (messageContent response) as [content|]; cbn [bind]; [|discriminate].
  destruct (cleanJsonResponse content) as [cleaned|]; cbn [bind]; [|discriminate].
  destruct (JSON_parse cleaned) as [parsedData|]; cbn [bind]; [|discriminate].
  intros H; exists parsedData; exact H.
Qed.





(** ** Sanitising *)

Lemma includes_char_cons (c a : ascii) (s : string) :
  includes (String a s) (String c "") = false ->
  Ascii.eqb a c = false /\ includes s (String c "") = false.
Proof.
  simpl; intros H; apply orb_false_iff in H as [H1 H2].
  split; [|exact H2].
  rewrite Ascii.eqb_sym.
  destruct (Ascii.eqb c a); auto.
  destruct s; discriminate.
Qed.

Lemma indexOf_absent (c : ascii) (s : string) :
  includes s (String c "") = false -> indexOf c s = (-1)%Z.
Proof.
  induction s as [|a s IH]; intros H; simpl; auto.
  apply includes_char_cons in H as [-> H].
  now rewrite (IH H).
Qed.

Lemma lastIndexOf_absent (c : ascii) (s : string) :
  includes s (String c "") = false -> lastIndexOf c s = (-1)%Z.
Proof.
  induction s as [|a s IH]; intros H; simpl; auto.
  apply includes_char_cons in H as [-> H].
  now rewrite (IH H).
Qed.

(** The first occurrence, after a prefix free of the character. *)
Lemma indexOf_first (c : ascii) (pre rest : string) :
  includes pre (String c "") = false ->
  indexOf c (pre ++ String c rest) = Z.of_nat (String.length pre).
Proof.
  induction pre as [|a pre IH]; intros H.
  - simpl; now rewrite Ascii.eqb_refl.
  - apply includes_char_cons in H as [Ha H].
    cbn [append indexOf String.length]; rewrite Ha, (IH H).
    destruct (Z.eqb_spec (Z.of_nat (String.length pre)) (-1)); lia.
Qed.

(** The last occurrence, before a suffix free of the character. *)
Lemma lastIndexOf_last (c : ascii) (front post : string) :
  includes post (String c "") = false ->
  lastIndexOf c (front ++ String c post) = Z.of_nat (String.length front).
Proof.
  intros H; induction front as [|a front IH].
  - simpl; now rewrite (lastIndexOf_absent c post H), Ascii.eqb_refl.
  - cbn [append lastIndexOf String.length]; rewrite IH.
    destruct (Z.eqb_spec (Z.of_nat (String.length front)) (-1)); lia.
Qed.

Lemma substring_within (a b : nat) (s : string) :
  a <= b -> b <= String.length s ->
  substring (Z.of_nat a) (Z.of_nat b) s = take (b - a) (drop a s).
Proof.
  intros Hab Hb; unfold substring; cbv zeta.
  replace (Z.max 0 (Z.min (Z.of_nat a) (Z.of_nat (String.length s))))
    with (Z.of_nat a) by lia.
  replace (Z.max 0 (Z.min (Z.of_nat b) (Z.of_nat (String.length s))))
    with (Z.of_nat b) by lia.
  replace (Z.min (Z.of_nat a) (Z.of_nat b)) with (Z.of_nat a) by lia.
  replace (Z.max (Z.of_nat a) (Z.of_nat b)) with (Z.of_nat b) by lia.
  now rewrite !Nat2Z.id.
Qed.

Lemma substring_middle (pre mid post : string) :
  substring (Z.of_nat (String.length pre))
            (Z.of_nat (String.length pre + String.length mid))
            (pre ++ mid ++ post)
  = mid.
Proof.
  rewrite substring_within by (rewrite ?length_append; lia).
  replace (String.length pre + String.length mid - String.length pre)
    with (String.length mid) by lia.
  now rewrite drop_append, take_append.
Qed.

(** The slice kept by [cleanJsonResponse] when the text before the
    object holds no opening brace and the text after it no closing one. *)
Lemma cleanJsonResponse_wrapped (pre body post : string) :
  includes pre "{" = false -> includes post "}" = false ->
  cleanJsonResponse (JStr (pre ++ "{" ++ body ++ "}" ++ post))
  = Return (JStr ("{" ++ body ++ "}")).
Proof.
  intros Hpre Hpost; unfold cleanJsonResponse.
  change (pre ++ "{" ++ body ++ "}" ++ post)%string
    with (pre ++ String "{" (body ++ String "}" post))%string.
  change ("{" ++ body ++ "}")%string with (String "{" (body ++ "}"))%string.
  set (s := (pre ++ String "{" (body ++ String "}" post))%string).
  assert (Hfirst : indexOf "{" s = Z.of_nat (String.length pre))
    by (apply indexOf_first; exact Hpre).
  assert (Hs : s = ((pre ++ String "{" body) ++ String "}" post)%string)
    by (unfold s; rewrite append_assoc; reflexivity).
  assert (Hlast : lastIndexOf "}" s
                  = Z.of_nat (String.length (pre ++ String "{" body)))
    by (rewrite Hs; apply lastIndexOf_last; exact Hpost).
  assert (Hmid : s = (pre ++ String "{" (body ++ "}") ++ post)%string)
    by (unfold s; cbn [append]; rewrite append_assoc; reflexivity).
  rewrite Hfirst, Hlast.
  destruct (Z.eqb_spec (Z.of_nat (String.length pre)) (-1)); [lia|].
  destruct (Z.eqb_spec (Z.of_nat (String.length (pre ++ String "{" body))) (-1));
    [lia|].
  cbn [negb andb]; do 2 f_equal.
  rewrite Hmid.
  rewrite <- (substring_middle pre (String "{" (body ++ "}")) post) at 2.
  f_equal.
  rewrite length_append; cbn [String.length]; rewrite length_append;
    cbn [String.length]; lia.
Qed.

Lemma messageContent_completionOf (content : jsval) :
  messageContent (completionOf content) = Return content.
Proof. reflexivity. Qed.

Lemma get_absent (props : list (string * jsval)) (field : string) :
  lookup field props = None -> get (JObj props) field = JUndefined.
Proof. unfold get; intros ->; reflexivity. Qed.

(** C2, as the code has it: an object wrapped in text without braces is
    sliced out exactly; then name, email, phone and linkedin, when the
    decoded object lacks them, receive the values the fallback path
    defaults to, while skills, experience, education, certifications and
    projects, when it lacks them, receive the empty sequence. *)
Theorem sanitize_and_backfill (JSON_parse : jsval -> completion jsval)
    (this : NLPService) (pre body post text : string)
    (props : list (string * jsval)) :
  includes pre "{" = false -> includes post "}" = false ->
  JSON_parse (JStr ("{" ++ body ++ "}")) = Return (JObj props) ->
  let content := (pre ++ "{" ++ body ++ "}" ++ post)%string in
  let record :=
    extractResumeData JSON_parse this (Return (completionOf (JStr content))) text in
  cleanJsonResponse (JStr content) = Return (JStr ("{" ++ body ++ "}")) /\
  (forall field, In field ["name"; "email"; "phone"; "linkedin"] ->
                 lookup field props = None ->
                 get record field = fallbackDefault field) /\
  (forall field,
      In field ["skills"; "experience"; "education"; "certifications"; "projects"] ->
      lookup field props = None ->
      get record field = JArr []).
Proof.
  intros Hpre Hpost Hparse content record.
  pose proof (cleanJsonResponse_wrapped pre body post Hpre Hpost) as Hclean.
  split; [exact Hclean|].
  assert (Hrecord : Return record = ensureFields (JObj props)).
  { unfold record, extractResumeData, primaryAttempt; cbn [bind].
    rewrite messageContent_completionOf; cbn [bind].
    unfold content; rewrite Hclean; cbn [bind]; rewrite Hparse; cbn [bind].
    reflexivity. }
  clearbody record; clear content Hclean.
  unfold ensureFields in Hrecord; cbn [isNullish] in Hrecord.
  injection Hrecord as ->.
  assert (Hor : forall field d,
             lookup field props = None -> or_ (get (JObj props) field) d = d)
    by (intros field d H; rewrite (get_absent props field H); reflexivity).
  assert (Harr : forall field,
             lookup field props = None ->
             arrayOrEmpty (get (JObj props) field) = JArr [])
    by (intros field H; rewrite (get_absent props field H); reflexivity).
  split; intros field Hin Habsent.
  - destruct Hin as [<-|[<-|[<-|[<-|[]]]]];
      cbn [get lookup String.eqb Ascii.eqb Bool.eqb];
      rewrite (Hor _ _ Habsent); vm_compute; reflexivity.
  - destruct Hin as [<-|[<-|[<-|[<-|[<-|[]]]]]];
      cbn [get lookup String.eqb Ascii.eqb Bool.eqb];
      apply (Harr _ Habsent).
Qed.

Lemma sanitize_and_backfill_witness :
  includes fencePrefix "{" = false /\ includes fenceSuffix "}" = false /\
  referenceParse (JStr onlyName) = Return (JObj [("name", JStr "X")]) /\
  cleanJsonResponse (JStr fencedAnswer) = Return (JStr onlyName) /\
  (forall field, In field ["name"; "email"; "phone"; "linkedin"] ->
                 lookup field [("name", JStr "X")] = None ->
                 get (extractResumeData referenceParse svc
                        (Return (completionOf (JStr fencedAnswer))) "")
                     field
                 = fallbackDefault field) /\
  (forall field,
      In field ["skills"; "experience"; "education"; "certifications"; "projects"] ->
      lookup field [("name", JStr "X")] = None ->
      get (extractResumeData referenceParse svc
             (Return (completionOf (JStr fencedAnswer))) "")
          field
      = JArr []).
Proof.
  split; [reflexivity|]; split; [reflexivity|]; split; [reflexivity|].
  exact (sanitize_and_backfill referenceParse svc fencePrefix onlyNameBody
           fenceSuffix "" [("name", JStr "X")] eq_refl eq_refl eq_refl).
Defined.

(** C2, as the claim has it, fails: the sequence fields the answer lacks
    are not given the placeholders of the fallback path. *)
Lemma backfill_with_empty_sequences :
  let record :=
    extractResumeData referenceParse svc
      (Return (completionOf (JStr fencedAnswer))) "" in
  get record "name" = JStr "X" /\
  get record "skills" = JArr [] /\
  fallbackDefault "skills" = strings ["JavaScript"; "React"; "Node.js"] /\
  get record "experience" = JArr [] /\
  fallbackDefault "experience" = JArr [experienceToJS placeholderExperience] /\
  get record "education" = JArr [] /\
  fallbackDefault "education" = JArr [educationToJS placeholderEducation] /\
  get record "projects" = JArr [] /\
  fallbackDefault "projects" = JArr [projectToJS placeholderProject].
Proof. vm_compute; repeat split. Qed.

(** ** The examples of the specification *)

Example skills_in_taxonomy_order :
  extractSkillsFromText "I know react and PYTHON" = ["Python"; "C"; "R"; "React"].
Proof. reflexivity. Qed.

Example experience_line :
  extractExperienceFromText "Senior Engineer | Acme Corp | 2022 - Present"
  = [ {| title := "Senior Engineer";
         company := "Acme Corp";
         duration := "2022 - Present";
         description := "Developed and maintained software applications" |} ]
  /\ extractExperienceFromText "Senior Engineer | 2022 - Present"
     = [placeholderExperience].
Proof. split; reflexivity. Qed.

Example contact_lines :
  let record :=
    extractFallbackData svc
      ("Jane Doe" ++ String LF "jane.doe@example.com" ++ String LF
       "+1 (555) 111-2222" ++ String LF "linkedin.com/in/janedoe") in
  name record = "Jane Doe" /\ email record = "jane.doe@example.com" /\
  phone record = ("+1 (555) 111-2222" ++ String LF "")%string /\
  linkedin record = "https://linkedin.com/in/janedoe".
Proof. vm_compute; repeat split. Qed.

(** * Further properties *)

(** ** Certification extractor *)

Lemma push_loop_map_filter {A B : Type} (test : A -> bool) (f : A -> B)
    (l : list A) (acc : list B) :
  fold_left (fun found x => if test x then found ++ [f x] else found) l acc
  = acc ++ map f (filter test l).
Proof.
  revert acc; induction l as [|x l IH]; intros acc; simpl.
  - now rewrite app_nil_r.
  - rewrite IH; destruct (test x); simpl; auto.
    now rewrite <- app_assoc.
Qed.

(** X1: the certifications are the keywords that occur in the text,
    letter case apart, in the order of the keyword list and each followed
    by the word Certification; removing duplicates never removes
    anything. *)
Theorem extractCertificationsFromText_spec (text : string) :
  extractCertificationsFromText text
  = map certificationOf (filter (occursI text) certKeywords).
Proof.
  change (extractCertificationsFromText text)
    with (uniqueFrom []
            (fold_left
               (fun found x =>
                  if includes (toLowerCase text) (toLowerCase x)
                  then found ++ [certificationOf x] else found)
               certKeywords [])).
  rewrite (push_loop_map_filter
             (fun keyword => includes (toLowerCase text) (toLowerCase keyword))
             certificationOf certKeywords []).
  rewrite (filter_ext _ (occursI text) (fun k => includes_lower text k)).
  cbn [app]; unfold certKeywords; cbn [filter].
  destruct (occursI text "AWS"), (occursI text "Google Cloud"),
    (occursI text "MongoDB"), (occursI text "Scrum"),
    (occursI text "Certified"), (occursI text "Certificate"); reflexivity.
Qed.

Lemma certificationOf_injective (k k' : string) :
  certificationOf k = certificationOf k' -> k = k'.
Proof.
  unfold certificationOf; revert k'; induction k as [|c k IH]; intros [|c' k'];
    simpl; auto.
  - intros H; apply (f_equal String.length) in H; simpl in H.
    rewrite length_append in H; simpl in H; lia.
  - intros H; apply (f_equal String.length) in H; simpl in H.
    rewrite length_append in H; simpl in H; lia.
  - intros [= -> H]; f_equal; auto.
Qed.

Lemma certification_reported (text keyword : string) :
  In keyword certKeywords ->
  (In (certificationOf keyword) (extractCertificationsFromText text)
   <-> occursI text keyword = true).
Proof.
  intros Hk; rewrite extractCertificationsFromText_spec, in_map_iff.
  split.
  - intros (k' & Heq & Hin); apply certificationOf_injective in Heq; subst k'.
    apply filter_In in Hin; tauto.
  - intros H; exists keyword; split; auto.
    apply filter_In; auto.
Qed.

Lemma skill_reported (text skill : string) :
  In skill technicalSkills -> ~ In skill defaultSkills ->
  (In skill (extractSkillsFromText text) <-> occursI text skill = true).
Proof.
  intros Hs Hd; split; [|now apply extractSkillsFromText_found].
  rewrite extractSkillsFromText_spec; unfold skillsSpec.
  destruct (filter (occursI text) technicalSkills) as [|x l] eqn:E.
  - intros H; contradiction.
  - rewrite <- E; intros H; apply filter_In in H; tauto.
Qed.

(** X2: for AWS, Google Cloud, MongoDB and Scrum, the skill is reported
    exactly when the certification of that name is: a text that mentions
    the technology is credited with its certification. *)
Theorem skill_iff_certification (text keyword : string) :
  In keyword sharedKeywords ->
  (In keyword (extractSkillsFromText text)
   <-> In (certificationOf keyword) (extractCertificationsFromText text)).
Proof.
  intros Hk.
  assert (H : In keyword technicalSkills /\ ~ In keyword defaultSkills /\
              In keyword certKeywords).
  { unfold sharedKeywords in Hk; simpl in Hk.
    destruct Hk as [<-|[<-|[<-|[<-|[]]]]];
      (split; [unfold technicalSkills; simpl; tauto|]);
      (split; [|unfold certKeywords; simpl; tauto]);
      unfold defaultSkills; simpl; intros [H|[H|[H|[]]]]; discriminate H. }
  destruct H as (Hs & Hd & Hc).
  rewrite (skill_reported text keyword Hs Hd).
  symmetry; apply certification_reported; exact Hc.
Qed.

Lemma skill_iff_certification_witness :
  In "AWS" sharedKeywords /\
  (In "AWS" (extractSkillsFromText "Deployed services on aws")
   <-> In (certificationOf "AWS")
          (extractCertificationsFromText "Deployed services on aws")).
Proof.
  split; [simpl; tauto|].
  apply (skill_iff_certification "Deployed services on aws" "AWS").
  simpl; tauto.
Defined.

(** ** More on the skill matcher *)

Lemma technicalSkills_NoDup : NoDup technicalSkills.
Proof.
  assert (H : nodup string_dec technicalSkills = technicalSkills)
    by (vm_compute; reflexivity).
  rewrite <- H; apply NoDup_nodup.
Qed.

Lemma defaultSkills_in_taxonomy : incl defaultSkills technicalSkills.
Proof.
  intros s [<-|[<-|[<-|[]]]]; unfold technicalSkills; simpl; tauto.
Qed.

(** X3: the skills returned are taxonomy entries, none of them twice. *)
Theorem skills_within_taxonomy (text : string) :
  incl (extractSkillsFromText text) technicalSkills /\
  NoDup (extractSkillsFromText text).
Proof.
  rewrite extractSkillsFromText_spec; unfold skillsSpec.
  destruct (filter (occursI text) technicalSkills) as [|x l] eqn:E.
  - split; [apply defaultSkills_in_taxonomy|].
    assert (H : nodup string_dec defaultSkills = defaultSkills)
      by (vm_compute; reflexivity).
    rewrite <- H; apply NoDup_nodup.
  - rewrite <- E; split.
    + intros s Hs; apply filter_In in Hs; tauto.
    + apply NoDup_filter, technicalSkills_NoDup.
Qed.

Lemma occursAtI_append (t b p : string) :
  occursAtI t p = true -> occursAtI (t ++ b) p = true.
Proof.
  revert t; induction p as [|a p IH]; intros t H.
  - destruct (t ++ b)%string; reflexivity.
  - destruct t as [|c t]; [discriminate H|].
    cbn [occursAtI append] in *.
    apply andb_true_iff in H as [H1 H2].
    rewrite H1, (IH _ H2); reflexivity.
Qed.

Lemma occursI_append (t b p : string) :
  occursI t p = true -> occursI (t ++ b) p = true.
Proof.
  induction t as [|c t IH]; intros H.
  - simpl in H; rewrite orb_false_r in H.
    destruct p; [destruct b; reflexivity | discriminate].
  - cbn [occursI] in H; apply orb_true_iff in H as [H|H].
    + apply (occursAtI_append _ b) in H; cbn [append] in H.
      cbn [append occursI]; rewrite H; reflexivity.
    + cbn [append occursI]; rewrite (IH H); apply orb_true_r.
Qed.

Lemma occursI_prepend (a t p : string) :
  occursI t p = true -> occursI (a ++ t) p = true.
Proof.
  intros H; induction a as [|c a IH]; auto.
  cbn [append occursI]; rewrite IH; apply orb_true_r.
Qed.

Lemma occursI_within (a t b p : string) :
  occursI t p = true -> occursI (a ++ t ++ b) p = true.
Proof. intros H; now apply occursI_prepend, occursI_append. Qed.

Lemma foundSkillsOf_occursI (text : string) :
  foundSkillsOf text = filter (occursI text) technicalSkills.
Proof.
  rewrite foundSkillsOf_filter.
  apply filter_ext; intros skill; apply includes_lower.
Qed.

Lemma found_nonempty (text : string) :
  foundSkillsOf text <> [] -> filter (occursI text) technicalSkills <> [].
Proof.
  intros Hfound H; apply Hfound; rewrite (foundSkillsOf_occursI text); exact H.
Qed.

Lemma found_skill_occurs (text skill : string) :
  foundSkillsOf text <> [] ->
  In skill (extractSkillsFromText text) ->
  In skill technicalSkills /\ occursI text skill = true.
Proof.
  intros Hfound; apply found_nonempty in Hfound.
  rewrite (extractSkillsFromText_spec text); unfold skillsSpec.
  destruct (filter (occursI text) technicalSkills) as [|x l] eqn:E.
  - intros _; exfalso; apply Hfound; reflexivity.
  - rewrite <- E; intros Hin; apply filter_In in Hin; exact Hin.
Qed.

(** X4: text added before or after never removes a skill that was
    found: when the loop finds some entry in a text, every skill it
    returns for that text is returned for the longer text as well. *)
Theorem skills_monotone (before text after : string) :
  foundSkillsOf text <> [] ->
  incl (extractSkillsFromText text)
       (extractSkillsFromText (before ++ text ++ after)).
Proof.
  intros Hfound skill Hin.
  destruct (found_skill_occurs text skill Hfound Hin) as [Htax Hocc].
  apply extractSkillsFromText_found;
    [exact Htax | apply occursI_within; exact Hocc].
Qed.

Lemma skills_monotone_witness :
  foundSkillsOf "Python" <> [] /\
  incl (extractSkillsFromText "Python")
       (extractSkillsFromText ("I write " ++ "Python" ++ " daily")).
Proof.
  assert (H : foundSkillsOf "Python" <> [])
    by (rewrite foundSkillsOf_occursI; vm_compute; discriminate).
  split; [exact H|].
  exact (skills_monotone "I write " "Python" " daily" H).
Defined.

(** ** Project and education extractors *)

Lemma slice_first {A : Type} (n : nat) (l : list A) : slice 0 n l = firstn n l.
Proof. unfold slice; now rewrite Nat.sub_0_r. Qed.

Lemma technologies_wellFormed (text : string) :
  1 <= List.length (slice 0 3 (extractSkillsFromText text)) <= 3 /\
  incl (slice 0 3 (extractSkillsFromText text)) technicalSkills.
Proof.
  rewrite slice_first.
  destruct (skills_within_taxonomy text) as [Hincl _].
  pose proof (skills_nonEmpty text) as Hne.
  destruct (extractSkillsFromText text) as [|x l]; [contradiction|].
  split.
  - split; [simpl; lia|].
    rewrite length_firstn; lia.
  - intros s Hs; apply Hincl.
    rewrite <- (firstn_skipn 3 (x :: l)); apply in_or_app; auto.
Qed.

Lemma projectsLoop_wellFormed (lines : list string) (projects : list ProjectEntry) :
  Forall wellFormedProject projects ->
  Forall wellFormedProject (projectsLoop lines projects).
Proof.
  revert projects; induction lines as [|raw rest IH]; intros projects Hacc; auto.
  cbn [projectsLoop].
  destruct (includes (toLowerCase (trim raw)) "project" &&
            negb (includes (toLowerCase (trim raw)) "projects:")); auto.
  apply IH, Forall_app; split; auto.
  constructor; [|constructor].
  unfold wellFormedProject; cbn [projectName projectDescription technologies].
  split; [apply orElse_nonEmpty; reflexivity|].
  split; [apply orElse_nonEmpty; reflexivity|].
  apply technologies_wellFormed.
Qed.

Lemma placeholderProject_wellFormed : wellFormedProject placeholderProject.
Proof.
  unfold wellFormedProject; cbn.
  repeat split; auto; try lia.
  intros s [<-|[<-|[<-|[]]]]; unfold technicalSkills; simpl; tauto.
Qed.

(** X5: every project entry, found or placeholder, has a name and a
    description that are not empty and between one and three
    technologies, all of them taxonomy entries. *)
Theorem projects_wellFormed (text : string) :
  Forall wellFormedProject (extractProjectsFromText text).
Proof.
  unfold extractProjectsFromText.
  pose proof (projectsLoop_wellFormed (split LF text) [] (Forall_nil _)) as H.
  destruct (projectsLoop (split LF text) []); cbn [List.length Nat.eqb app]; auto.
  constructor; [apply placeholderProject_wellFormed | constructor].
Qed.

Lemma educationLoop_wellFormed (lines : list string) :
  Forall wellFormedEducation (educationLoop lines) /\
  List.length (educationLoop lines) <= 1.
Proof.
  induction lines as [|raw rest IH]; [split; [constructor | simpl; lia]|].
  cbn [educationLoop].
  destruct (includes (toLowerCase (trim raw)) "bachelor" ||
            includes (toLowerCase (trim raw)) "master" ||
            includes (toLowerCase (trim raw)) "university"); auto.
  split; [|simpl; lia].
  constructor; [|constructor].
  unfold wellFormedEducation; cbn [degree school year cgpa stream].
  split.
  - destruct (includes (trim raw) "Bachelor"); [simpl; tauto|].
    destruct (includes (trim raw) "Master"); simpl; tauto.
  - split; [|auto].
    destruct (includes match rest with
                       | [] => ""
                       | next :: _ => trim next
                       end "University") eqn:E; [exact E | reflexivity].
Qed.

(** X6: the education extractor returns exactly one entry, whatever the
    number of lines that mention a degree; its degree is one of
    Bachelor of Science, Master of Science and Degree, its school holds
    the word University, and year, cgpa and stream are the fixed
    2020, 3.5 and Computer Science. *)
Theorem education_single_entry (text : string) :
  exists entry, extractEducationFromText text = [entry] /\
                wellFormedEducation entry.
Proof.
  unfold extractEducationFromText.
  destruct (educationLoop_wellFormed (split LF text)) as [Hall Hlen].
  destruct (educationLoop (split LF text)) as [|e [|e' l]].
  - exists placeholderEducation; split; [reflexivity|].
    unfold wellFormedEducation; cbn; repeat split; auto.
  - exists e; split; [reflexivity|].
    now inversion Hall.
  - simpl in Hlen; lia.
Qed.

(** ** More on the contact extractor *)

Lemma trim_white (w : string) : allWhite w = true -> trim w = "".
Proof. intros H; unfold trim; now rewrite trimStart_white. Qed.

(** A line trims to the empty string exactly when it is blank. *)
Lemma trim_blank (line : string) :
  (0 <? String.length (trim line)) = negb (allWhite line).
Proof.
  destruct (allWhite line) eqn:E.
  - now rewrite trim_white.
  - destruct (trim line) as [|c r] eqn:Et; [|reflexivity].
    destruct (trim_decompose line) as (w1 & w2 & H1 & H2 & Hl).
    rewrite Et in Hl; simpl in Hl.
    rewrite Hl, allWhite_append, H1, H2 in E; discriminate.
Qed.

Lemma first_kept {A B : Type} (f : A -> B) (keep : B -> bool) (l : list A) :
  nth_error (filter keep (map f l)) 0
  = option_map f (find (fun x => keep (f x)) l).
Proof.
  induction l as [|x l IH]; simpl; auto.
  destruct (keep (f x)); simpl; auto.
Qed.

Lemma find_ext_bool {A : Type} (p q : A -> bool) (l : list A) :
  (forall x, p x = q x) -> find p l = find q l.
Proof.
  intros H; induction l as [|x l IH]; simpl; auto.
  now rewrite H, IH.
Qed.

(** X7: the name is the first line of the text that is not blank,
    trimmed, and the sentinel Unknown when every line is blank. *)
Theorem name_is_first_line (this : NLPService) (text : string) :
  name (extractFallbackData this text)
  = match find (fun line => negb (allWhite line)) (split LF text) with
    | Some line => trim line
    | None => "Unknown"
    end.
Proof.
  change (name (extractFallbackData this text))
    with (orElse (nth_error (filter (fun line => 0 <? String.length line)
                                    (map trim (split LF text))) 0)
                 "Unknown").
  rewrite (first_kept trim (fun line => 0 <? String.length line)).
  rewrite (find_ext_bool _ (fun line => negb (allWhite line)) _ trim_blank).
  destruct (find (fun line => negb (allWhite line)) (split LF text))
    as [line|] eqn:E; [|reflexivity].
  apply find_some in E as [_ E]; rewrite <- trim_blank in E.
  cbn [option_map orElse]; unfold nonEmpty.
  destruct (trim line); [discriminate | reflexivity].
Qed.

Lemma single_char (c : ascii) (u : string) :
  allChars (isChar c) u = true -> String.length u = 1 -> u = String c "".
Proof.
  destruct u as [|a [|b u]]; simpl; try discriminate.
  intros H _; rewrite andb_true_r in H.
  apply Ascii.eqb_eq in H; now subst.
Qed.

Lemma shaped_email (w : string) : shaped emailPattern w -> emailShaped w.
Proof.
  intros (u1 & v1 & -> & A1 & L1 & _ & H).
  destruct H as (u2 & v2 & -> & A2 & L2 & M2 & H).
  destruct H as (u3 & v3 & -> & A3 & L3 & _ & H).
  destruct H as (u4 & v4 & -> & A4 & L4 & M4 & H).
  destruct H as (u5 & v5 & -> & A5 & L5 & _ & ->).
  cbn [accepts atLeast atMost once plus] in *.
  rewrite (single_char "@" u2 A2) by lia.
  rewrite (single_char "." u4 A4) by lia.
  exists u1, u3, u5; rewrite append_nil_r; repeat split; auto.
Qed.

(** X8: the email is the leftmost substring of the text that matches
    the pattern when there is one, and the sentinel when there is none
    (a match may itself read as the sentinel does); in both cases
    it reads local@domain.tld, the three parts being non-empty, local
    and domain made of word characters, dots and hyphens and tld of word
    characters. *)
Theorem email_spec (this : NLPService) (text : string) :
  emailShaped (email (extractFallbackData this text)) /\
  match regexMatch emailPattern text with
  | None =>
      email (extractFallbackData this text) = "unknown@email.com" /\
      forall i w, occursAt text i w -> ~ shaped emailPattern w
  | Some w =>
      email (extractFallbackData this text) = w /\
      exists i, occursAt text i w /\
                forall i' w', occursAt text i' w' -> shaped emailPattern w' ->
                              i <= i'
  end.
Proof.
  change (email (extractFallbackData this text))
    with (match regexMatch emailPattern text with
          | Some m => m
          | None => "unknown@email.com"
          end).
  pose proof (regexMatch_spec emailPattern text) as H.
  destruct (regexMatch emailPattern text) as [w|].
  - destruct H as [Hshape Hleft].
    split; [apply shaped_email; exact Hshape|].
    split; [reflexivity | exact Hleft].
  - split; [|split; [reflexivity | exact H]].
    exists "unknown", "email", "com"; repeat split; simpl; lia.
Qed.

Lemma allAscii_complete (x : ascii) : In x allAscii.
Proof.
  unfold allAscii; rewrite <- (ascii_nat_embedding x).
  apply in_map, in_seq.
  pose proof (nat_ascii_bounded x); lia.
Qed.

Lemma forall_ascii (P : ascii -> bool) :
  forallb P allAscii = true -> forall x, P x = true.
Proof.
  intros H x; rewrite forallb_forall in H; apply H, allAscii_complete.
Qed.

(** Two characters equal under the [i] flag are equal once in lower
    case. *)
Lemma isCharI_lowerChar (c x : ascii) :
  isCharI c x = true -> lowerChar x = lowerChar c.
Proof.
  assert (H : forallb
                (fun c => forallb
                            (fun x => implb (isCharI c x)
                                            (Ascii.eqb (lowerChar x) (lowerChar c)))
                            allAscii)
                allAscii = true) by (vm_compute; reflexivity).
  pose proof (forall_ascii _ (forall_ascii _ H c) x) as Hcx; cbv beta in Hcx.
  intros Hi; rewrite Hi in Hcx; simpl in Hcx.
  now apply Ascii.eqb_eq.
Qed.

Lemma single_charI (c : ascii) (u : string) :
  allChars (isCharI c) u = true -> String.length u = 1 ->
  toLowerCase u = String (lowerChar c) "".
Proof.
  destruct u as [|a [|b u]]; simpl; try discriminate.
  intros H _; rewrite andb_true_r in H.
  now rewrite (isCharI_lowerChar c a H).
Qed.

Lemma toLowerCase_append (a b : string) :
  toLowerCase (a ++ b) = (toLowerCase a ++ toLowerCase b)%string.
Proof. induction a as [|c a IH]; simpl; congruence. Qed.

(** A match of a literal under the [i] flag followed by more atoms. *)
Lemma shaped_literalI (p : string) (r : regex) (w : string) :
  shaped (literalI p ++ r) w ->
  exists host rest,
    w = (host ++ rest)%string /\ toLowerCase host = toLowerCase p /\
    shaped r rest.
Proof.
  revert w; induction p as [|c p IH]; intros w H.
  - exists "", w; auto.
  - cbn [literalI app] in H.
    destruct H as (u & v & -> & A & L & M & H).
    cbn [accepts atLeast atMost once] in *.
    destruct (IH v H) as (host & rest & -> & Hhost & Hrest).
    exists (u ++ host)%string, rest; split; [now rewrite append_assoc|].
    split; [|exact Hrest].
    rewrite toLowerCase_append, (single_charI c u A), Hhost by lia.
    reflexivity.
Qed.

Lemma shaped_linkedin (w : string) :
  shaped linkedinPattern w -> linkedinShaped w.
Proof.
  intros H; apply shaped_literalI in H as (host & rest & -> & Hhost & H).
  destruct H as (u & v & -> & A & L & _ & ->).
  cbn [accepts atLeast plus] in *.
  exists host, u; rewrite append_nil_r; auto.
Qed.

(** X9: the linkedin field is empty exactly when no substring of the
    text matches the pattern; otherwise it is https:// followed by the
    leftmost match, copied from the text with its letter case: the
    host and path read linkedin.com/in/ once in lower case, and the
    handle is a non-empty run of word characters and hyphens. *)
Theorem linkedin_spec (this : NLPService) (text : string) :
  match regexMatch linkedinPattern text with
  | None =>
      linkedin (extractFallbackData this text) = "" /\
      forall i w, occursAt text i w -> ~ shaped linkedinPattern w
  | Some w =>
      linkedin (extractFallbackData this text) = ("https://" ++ w)%string /\
      linkedinShaped w /\
      exists i, occursAt text i w /\
                forall i' w', occursAt text i' w' -> shaped linkedinPattern w' ->
                              i <= i'
  end.
Proof.
  change (linkedin (extractFallbackData this text))
    with (match regexMatch linkedinPattern text with
          | Some m => ("https://" ++ m)%string
          | None => ""
          end).
  pose proof (regexMatch_spec linkedinPattern text) as H.
  destruct (regexMatch linkedinPattern text) as [w|].
  - destruct H as [Hshape Hleft].
    split; [reflexivity|]; split; [apply shaped_linkedin; exact Hshape|].
    exact Hleft.
  - split; [reflexivity | exact H].
Qed.

(** ** More on sanitising *)

Lemma includes_char_step (c a : ascii) (s : string) :
  includes (String a s) (String c "") = Ascii.eqb c a || includes s (String c "").
Proof. simpl; destruct s; now rewrite andb_true_r. Qed.

Lemma includes_char_append (c : ascii) (x y : string) :
  includes (x ++ y) (String c "")
  = includes x (String c "") || includes y (String c "").
Proof.
  induction x as [|a x IH].
  - reflexivity.
  - cbn [append]; rewrite !includes_char_step, IH; apply orb_assoc.
Qed.

(** The first occurrence of a character, when there is one. *)
Lemma first_occurrence (c : ascii) (s : string) :
  includes s (String c "") = false \/
  exists pre rest, s = (pre ++ String c rest)%string /\
                   includes pre (String c "") = false.
Proof.
  induction s as [|a s IH]; [left; reflexivity|].
  destruct (Ascii.eqb_spec c a) as [<-|Hne].
  - right; exists "", s; auto.
  - destruct IH as [IH|(pre & rest & -> & Hpre)].
    + left; rewrite includes_char_step, IH.
      destruct (Ascii.eqb_spec c a); [contradiction | reflexivity].
    + right; exists (String a pre), rest; split; [reflexivity|].
      rewrite includes_char_step, Hpre.
      destruct (Ascii.eqb_spec c a); [contradiction | reflexivity].
Qed.

(** The last occurrence of a character, when there is one. *)
Lemma last_occurrence (c : ascii) (s : string) :
  includes s (String c "") = false \/
  exists front post, s = (front ++ String c post)%string /\
                     includes post (String c "") = false.
Proof.
  induction s as [|a s IH]; [left; reflexivity|].
  destruct IH as [IH|(front & post & -> & Hpost)].
  - destruct (Ascii.eqb_spec c a) as [<-|Hne].
    + right; exists "", s; auto.
    + left; rewrite includes_char_step, IH.
      destruct (Ascii.eqb_spec c a); [contradiction | reflexivity].
  - right; exists (String a front), post; auto.
Qed.

Lemma append_split (a b c d : string) :
  (a ++ b)%string = (c ++ d)%string -> String.length a <= String.length c ->
  exists m, c = (a ++ m)%string /\ b = (m ++ d)%string.
Proof.
  revert c; induction a as [|x a IH]; intros c H L.
  - exists c; auto.
  - destruct c as [|y c]; [simpl in L; lia|].
    cbn [append] in H; injection H as -> H.
    destruct (IH c H) as (m & -> & ->); [simpl in L; lia|].
    exists m; auto.
Qed.

Lemma substring_swapped (a b : nat) (s : string) :
  b <= a -> a <= String.length s ->
  substring (Z.of_nat a) (Z.of_nat b) s = take (a - b) (drop b s).
Proof.
  intros Hab Ha; unfold substring; cbv zeta.
  replace (Z.max 0 (Z.min (Z.of_nat a) (Z.of_nat (String.length s))))
    with (Z.of_nat a) by lia.
  replace (Z.max 0 (Z.min (Z.of_nat b) (Z.of_nat (String.length s))))
    with (Z.of_nat b) by lia.
  replace (Z.min (Z.of_nat a) (Z.of_nat b)) with (Z.of_nat b) by lia.
  replace (Z.max (Z.of_nat a) (Z.of_nat b)) with (Z.of_nat a) by lia.
  now rewrite !Nat2Z.id.
Qed.

Lemma cleanJsonResponse_without (s : string) :
  includes s "{" = false \/ includes s "}" = false ->
  cleanJsonResponse (JStr s) = Return (JStr s).
Proof.
  intros [H|H]; unfold cleanJsonResponse.
  - rewrite (indexOf_absent "{" s H); reflexivity.
  - rewrite (lastIndexOf_absent "}" s H), andb_false_r; reflexivity.
Qed.

(** When the last closing brace stands before the first opening one,
    the two bounds are swapped and what lies between them is kept. *)
Lemma cleanJsonResponse_crossed (front mid rest : string) :
  includes (front ++ String "}" mid) "{" = false ->
  includes (mid ++ String "{" rest) "}" = false ->
  cleanJsonResponse (JStr (front ++ String "}" (mid ++ String "{" rest)))
  = Return (JStr mid).
Proof.
  intros Hpre Hpost; unfold cleanJsonResponse.
  set (s := (front ++ String "}" (mid ++ String "{" rest))%string).
  assert (Hs : s = ((front ++ String "}" mid) ++ String "{" rest)%string)
    by (unfold s; rewrite append_assoc; reflexivity).
  assert (Hfirst : indexOf "{" s
                   = Z.of_nat (String.length (front ++ String "}" mid)))
    by (rewrite Hs; apply indexOf_first; exact Hpre).
  assert (Hlast : lastIndexOf "}" s = Z.of_nat (String.length front))
    by (apply lastIndexOf_last; exact Hpost).
  rewrite Hfirst, Hlast.
  destruct (Z.eqb_spec (Z.of_nat (String.length (front ++ String "}" mid))) (-1));
    [lia|].
  destruct (Z.eqb_spec (Z.of_nat (String.length front)) (-1)); [lia|].
  cbn [negb andb]; do 2 f_equal.
  replace (Z.of_nat (String.length front) + 1)%Z
    with (Z.of_nat (String.length (front ++ String "}" "")))
    by (rewrite length_append; cbn [String.length]; lia).
  rewrite substring_swapped.
  - replace s with ((front ++ String "}" "") ++ (mid ++ String "{" rest))%string
      by (unfold s; rewrite append_assoc; reflexivity).
    rewrite drop_append.
    replace (String.length (front ++ String "}" mid)
             - String.length (front ++ String "}" ""))
      with (String.length mid)
      by (rewrite !length_append; cbn [String.length]; lia).
    apply take_append.
  - rewrite !length_append; cbn [String.length]; lia.
  - rewrite Hs, !length_append; cbn [String.length]; lia.
Qed.

(** X10: on a string, [cleanJsonResponse] returns a substring of it,
    and sanitising that substring again changes nothing. *)
Theorem cleanJsonResponse_idempotent (s : string) :
  exists cleaned,
    cleanJsonResponse (JStr s) = Return (JStr cleaned) /\
    cleanJsonResponse (JStr cleaned) = Return (JStr cleaned) /\
    exists i, occursAt s i cleaned.
Proof.
  assert (Hwhole : exists i, occursAt s i s).
  { exists 0, "", ""; split; [cbn [append]; now rewrite append_nil_r | reflexivity]. }
  destruct (first_occurrence "{" s) as [Hno|(pre & rest & Hs1 & Hpre)].
  { exists s; pose proof (cleanJsonResponse_without s (or_introl Hno)); auto. }
  destruct (last_occurrence "}" s) as [Hno|(front & post & Hs2 & Hpost)].
  { exists s; pose proof (cleanJsonResponse_without s (or_intror Hno)); auto. }
  destruct (Nat.le_gt_cases (String.length pre) (String.length front)) as [L|L].
  - (* the opening brace comes first *)
    assert (Heq : (pre ++ String "{" rest)%string = (front ++ String "}" post)%string)
      by congruence.
    destruct (append_split _ _ _ _ Heq L) as (m & -> & Hm).
    destruct m as [|x body]; [discriminate Hm|].
    cbn [append] in Hm; injection Hm as <- ->.
    exists (String "{" (body ++ "}"))%string.
    split; [|split].
    + rewrite Hs1.
      exact (cleanJsonResponse_wrapped pre body post Hpre Hpost).
    + exact (cleanJsonResponse_wrapped "" body "" eq_refl eq_refl).
    + exists (String.length pre), pre, post; split; [|reflexivity].
      rewrite Hs1; cbn [append]; now rewrite append_assoc.
  - (* the closing brace comes first *)
    assert (Heq : (front ++ String "}" post)%string = (pre ++ String "{" rest)%string)
      by congruence.
    destruct (append_split _ _ _ _ Heq) as (m & -> & Hm); [lia|].
    destruct m as [|x mid]; [rewrite append_nil_r in L; lia|].
    cbn [append] in Hm; injection Hm as <- ->.
    exists mid.
    assert (Hmid1 : includes mid "{" = false).
    { pose proof Hpre as H; rewrite includes_char_append in H.
      apply orb_false_iff in H as [_ H].
      rewrite includes_char_step in H; apply orb_false_iff in H; tauto. }
    split; [|split].
    + rewrite Hs2; apply cleanJsonResponse_crossed; assumption.
    + apply cleanJsonResponse_without; left; exact Hmid1.
    + exists (S (String.length front)), (front ++ String "}" "")%string,
             (String "{" rest).
      split; [|rewrite length_append; cbn [String.length]; lia].
      rewrite Hs2, !append_assoc; reflexivity.
Qed.

(** ** More on the protocol layer *)

Lemma or_truthy (a b : jsval) : truthy a = true -> or_ a b = a.
Proof. unfold or_; intros ->; reflexivity. Qed.

Lemma or_idem (a b : jsval) : or_ (or_ a b) b = or_ a b.
Proof.
  unfold or_; destruct (truthy a) eqn:E; [now rewrite E|].
  destruct (truthy b); reflexivity.
Qed.

Lemma arrayOrEmpty_idem (v : jsval) : arrayOrEmpty (arrayOrEmpty v) = arrayOrEmpty v.
Proof. unfold arrayOrEmpty; destruct (isArray v) eqn:E; [now rewrite E | reflexivity]. Qed.

(** X11: the record built by [ensureFields] is a fixed point of it:
    decoding an answer that repeats a record the protocol layer returned
    gives that record again. *)
Theorem ensureFields_idempotent (parsedData record : jsval) :
  ensureFields parsedData = Return record ->
  ensureFields record = Return record.
Proof.
  unfold ensureFields at 1; destruct (isNullish parsedData); [discriminate|].
  intros [= <-]; unfold ensureFields.
  cbn [isNullish get lookup String.eqb Ascii.eqb Bool.eqb].
  now rewrite !or_idem, !arrayOrEmpty_idem.
Qed.

Lemma ensureFields_idempotent_witness :
  ensureFields (JObj [("name", JStr "X")]) = Return recordOfOnlyName /\
  ensureFields recordOfOnlyName = Return recordOfOnlyName.
Proof.
  split; [reflexivity|].
  apply (ensureFields_idempotent (JObj [("name", JStr "X")])); reflexivity.
Defined.

Lemma nonEmpty_false (s : string) : nonEmpty s = false -> s = "".
Proof. destruct s; [reflexivity | discriminate]. Qed.

Lemma ensureFields_toJS (r : CandidateRecord) :
  nonEmpty (name r) = true -> nonEmpty (email r) = true ->
  nonEmpty (phone r) = true ->
  ensureFields (toJS r) = Return (toJS r).
Proof.
  destruct r as [n e p l sk ex ed ce pr]; cbn -[nonEmpty].
  intros Hn He Hp; unfold ensureFields, toJS, strings.
  cbn [isNullish get lookup String.eqb Ascii.eqb Bool.eqb].
  rewrite !or_truthy by assumption.
  unfold arrayOrEmpty; cbn [isArray].
  unfold or_; cbn [truthy]; destruct (nonEmpty l) eqn:E; [reflexivity|].
  now rewrite (nonEmpty_false l E).
Qed.

(** X12: the backfill leaves every record of the fallback pipeline as
    it is: no sentinel replaces a value and no sequence is emptied. *)
Theorem ensureFields_keeps_fallback (this : NLPService) (text : string) :
  ensureFields (toJS (extractFallbackData this text))
  = Return (toJS (extractFallbackData this text)).
Proof.
  apply ensureFields_toJS.
  - apply name_nonEmpty.
  - apply email_nonEmpty.
  - apply phone_nonEmpty.
Qed.

(** X13: when the sanitised content decodes to a value that is neither
    an object nor [null] (a number, a string, a boolean, an array), the
    protocol layer does not fall back: it returns the record of
    sentinels and empty sequences, whatever the resume text. *)
Theorem decoded_non_object (JSON_parse : jsval -> completion jsval)
    (this : NLPService) (response content cleaned decoded : jsval)
    (text : string) :
  messageContent response = Return content ->
  cleanJsonResponse content = Return cleaned ->
  JSON_parse cleaned = Return decoded ->
  isPrimitiveOrArray decoded = true ->
  extractResumeData JSON_parse this (Return response) text = sentinelRecord.
Proof.
  intros Hc Hclean Hparse Hv.
  unfold extractResumeData, primaryAttempt; cbn [bind].
  rewrite Hc; cbn [bind]; rewrite Hclean; cbn [bind]; rewrite Hparse; cbn [bind].
  destruct decoded; try discriminate Hv; reflexivity.
Qed.

Lemma decoded_non_object_witness :
  extractResumeData referenceParse svc (Return (completionOf (JStr "[]")))
    "Jane Doe"
  = sentinelRecord.
Proof.
  apply (decoded_non_object referenceParse svc (completionOf (JStr "[]"))
           (JStr "[]") (JStr "[]") (JArr [])); reflexivity.
Defined.

(** X14: a content that is neither a string nor an array never reaches
    [JSON.parse]: the call on it throws and the fallback pipeline
    answers.  A missing content is such a content. *)
Theorem content_not_text (JSON_parse : jsval -> completion jsval)
    (this : NLPService) (response content : jsval) (text : string) :
  messageContent response = Return content ->
  isString content = false -> isArray content = false ->
  extractResumeData JSON_parse this (Return response) text
  = toJS (extractFallbackData this text).
Proof.
  intros Hc Hs Ha; apply extractResumeData_Throw.
  unfold primaryAttempt; cbn [bind]; rewrite Hc; cbn [bind].
  destruct content; try discriminate; reflexivity.
Qed.

Lemma content_not_text_witness :
  extractResumeData referenceParse svc (Return completionWithoutContent)
    "Jane Doe"
  = toJS (extractFallbackData svc "Jane Doe").
Proof.
  apply (content_not_text referenceParse svc completionWithoutContent
           JUndefined); reflexivity.
Defined.

(** ** Counting the projects *)

Lemma isWhiteSpace_lowerChar (c : ascii) :
  isWhiteSpace (lowerChar c) = isWhiteSpace c.
Proof.
  assert (H : forallb (fun c => Bool.eqb (isWhiteSpace (lowerChar c))
                                         (isWhiteSpace c))
                      allAscii = true) by (vm_compute; reflexivity).
  apply Bool.eqb_prop, (forall_ascii _ H c).
Qed.

Lemma trimStart_toLowerCase (s : string) :
  trimStart (toLowerCase s) = toLowerCase (trimStart s).
Proof.
  induction s as [|c s IH]; simpl; auto.
  rewrite isWhiteSpace_lowerChar; destruct (isWhiteSpace c); auto.
Qed.

Lemma trimEnd_toLowerCase (s : string) :
  trimEnd (toLowerCase s) = toLowerCase (trimEnd s).
Proof.
  induction s as [|c s IH]; simpl; auto.
  rewrite IH, isWhiteSpace_lowerChar.
  destruct (trimEnd s); simpl; auto.
  destruct (isWhiteSpace c); reflexivity.
Qed.

Lemma trim_toLowerCase (s : string) :
  trim (toLowerCase s) = toLowerCase (trim s).
Proof. unfold trim; now rewrite trimStart_toLowerCase, trimEnd_toLowerCase. Qed.

(** Whether the trimmed line, in lower case, includes a pattern in lower
    case and free of white space is whether the pattern occurs in the
    line, letter case apart. *)
Lemma includes_lower_trim (raw p : string) :
  noWhite (toLowerCase p) = true ->
  includes (toLowerCase (trim raw)) (toLowerCase p) = occursI raw p.
Proof.
  intros Hp.
  now rewrite <- trim_toLowerCase, includes_trim, includes_lower.
Qed.

Lemma qualifiesAsProject_trim (raw : string) :
  includes (toLowerCase (trim raw)) "project" &&
  negb (includes (toLowerCase (trim raw)) "projects:")
  = qualifiesAsProject raw.
Proof.
  unfold qualifiesAsProject.
  rewrite <- (includes_lower_trim raw "project") by reflexivity.
  rewrite <- (includes_lower_trim raw "projects:") by reflexivity.
  reflexivity.
Qed.

Lemma projectsLoop_length (lines : list string) (projects : list ProjectEntry) :
  List.length (projectsLoop lines projects)
  = List.length projects + List.length (filter qualifiesAsProject lines).
Proof.
  revert projects; induction lines as [|raw rest IH]; intros projects.
  - simpl; lia.
  - cbn [projectsLoop filter]; rewrite <- (qualifiesAsProject_trim raw).
    destruct (includes (toLowerCase (trim raw)) "project" &&
              negb (includes (toLowerCase (trim raw)) "projects:")).
    + rewrite IH, length_app; simpl; lia.
    + apply IH.
Qed.

(** X15: there are as many project entries as lines of the text that
    hold the word project, letter case apart, without holding
    projects: -- each such line gives an entry, none is merged or
    dropped -- and one entry, the placeholder, when there is no such
    line. *)
Theorem projects_count (text : string) :
  List.length (extractProjectsFromText text)
  = Nat.max 1 (List.length (filter qualifiesAsProject (split LF text))).
Proof.
  unfold extractProjectsFromText.
  pose proof (projectsLoop_length (split LF text) []) as H; simpl in H.
  destruct (projectsLoop (split LF text) []) as [|p l];
    simpl in *; rewrite <- H; reflexivity.
Qed.

(** ** The fields of an experience *)

Lemma trimEnd_cons (c : ascii) (s : string) :
  trimEnd (String c s)
  = match trimEnd s with
    | EmptyString => if isWhiteSpace c then EmptyString else String c EmptyString
    | r => String c r
    end.
Proof. reflexivity. Qed.

Lemma trimEnd_idempotent (s : string) : trimEnd (trimEnd s) = trimEnd s.
Proof.
  induction s as [|c s IH]; [reflexivity|].
  rewrite (trimEnd_cons c s).
  destruct (trimEnd s) as [|d r] eqn:E.
  - destruct (isWhiteSpace c) eqn:Hc; [reflexivity|].
    rewrite trimEnd_cons; cbn [trimEnd]; now rewrite Hc.
  - rewrite trimEnd_cons, IH; reflexivity.
Qed.

Lemma trimStart_trim (s : string) : trimStart (trim s) = trim s.
Proof.
  unfold trim; induction s as [|c s IH]; [reflexivity|].
  cbn [trimStart]; destruct (isWhiteSpace c) eqn:Hc; [exact IH|].
  rewrite trimEnd_cons; destruct (trimEnd s); rewrite ?Hc; cbn [trimStart];
    rewrite Hc; reflexivity.
Qed.

Lemma trim_idempotent (s : string) : trim (trim s) = trim s.
Proof.
  unfold trim at 1; rewrite trimStart_trim.
  unfold trim; apply trimEnd_idempotent.
Qed.

Lemma includes_char_trim (c : ascii) (s : string) :
  includes s (String c "") = false -> includes (trim s) (String c "") = false.
Proof.
  destruct (trim_decompose s) as (w1 & w2 & _ & _ & Hs).
  intros H; rewrite Hs, !includes_char_append in H.
  apply orb_false_iff in H as [_ H]; apply orb_false_iff in H; tauto.
Qed.

(** No segment holds the separator. *)
Lemma split_without_separator (sep : ascii) (s : string) :
  Forall (fun seg => includes seg (String sep "") = false) (split sep s).
Proof.
  induction s as [|c s IH]; simpl; [constructor; auto|].
  destruct (Ascii.eqb_spec c sep) as [->|Hne]; [constructor; auto|].
  destruct (split sep s) as [|h t]; inversion IH; subst.
  - constructor; [|constructor].
    rewrite includes_char_step.
    destruct (Ascii.eqb_spec sep c); [congruence | reflexivity].
  - constructor; auto.
    rewrite includes_char_step.
    destruct (Ascii.eqb_spec sep c); [congruence | assumption].
Qed.

(** A character absent from a string is absent from its segments. *)
Lemma split_without_char (sep c : ascii) (s : string) :
  includes s (String c "") = false ->
  Forall (fun seg => includes seg (String c "") = false) (split sep s).
Proof.
  induction s as [|a s IH]; intros H; simpl; [constructor; auto|].
  rewrite includes_char_step in H; apply orb_false_iff in H as [Ha H].
  specialize (IH H).
  destruct (Ascii.eqb a sep); [constructor; auto|].
  destruct (split sep s) as [|h t]; inversion IH; subst.
  - constructor; [|constructor].
    now rewrite includes_char_step, Ha.
  - constructor; auto.
    now rewrite includes_char_step, Ha.
Qed.

Lemma segments_clean (line : string) :
  includes line (String LF "") = false ->
  Forall cleanField (segments line).
Proof.
  intros Hline; unfold segments.
  pose proof (split_without_separator "|" line) as H1.
  pose proof (split_without_char "|" LF line Hline) as H2.
  induction (split "|" line) as [|seg l IH]; [constructor|].
  inversion H1; inversion H2; subst.
  constructor; [|apply IH; assumption].
  repeat split; auto using includes_char_trim, trim_idempotent.
Qed.

Lemma nth_clean (k : nat) (l : list string) :
  Forall cleanField l -> cleanField (nth k l "").
Proof.
  intros H; destruct (nth_in_or_default k l "") as [Hin| ->].
  - rewrite Forall_forall in H; auto.
  - repeat split.
Qed.

(** X16: in every experience entry, found or placeholder, the title,
    the company and the duration hold neither the delimiter nor a line
    feed and have no white space at their ends. *)
Theorem experience_fields_clean (text : string) (entry : ExperienceEntry) :
  In entry (extractExperienceFromText text) ->
  cleanField (title entry) /\ cleanField (company entry) /\
  cleanField (duration entry).
Proof.
  rewrite extractExperienceFromText_spec; unfold experienceSpec.
  destruct (map experienceOfLine
                (filter qualifiesAsExperience (split LF text))) as [|e l] eqn:E.
  - intros [<-|[]]; repeat split.
  - rewrite <- E; intros Hin.
    apply in_map_iff in Hin as (line & <- & Hline).
    apply filter_In in Hline as [Hline _].
    pose proof (split_without_separator LF text) as Hlf.
    rewrite Forall_forall in Hlf.
    pose proof (segments_clean line (Hlf line Hline)) as Hclean.
    unfold experienceOfLine; cbn [title company duration].
    auto using nth_clean.
Qed.

Lemma experience_fields_clean_witness :
  cleanField "Senior Engineer" /\ cleanField "Acme Corp" /\
  cleanField "2022 - Present".
Proof.
  apply (experience_fields_clean
           "  Senior Engineer |Acme Corp  | 2022 - Present | remote"
           {| title := "Senior Engineer";
              company := "Acme Corp";
              duration := "2022 - Present";
              description := "Developed and maintained software applications" |}).
  vm_compute; left; reflexivity.
Defined.

(** ** More on the education extractor *)

Lemma mentionsEducation_trim (raw : string) :
  includes (toLowerCase (trim raw)) "bachelor" ||
  includes (toLowerCase (trim raw)) "master" ||
  includes (toLowerCase (trim raw)) "university"
  = mentionsEducation raw.
Proof.
  unfold mentionsEducation.
  rewrite <- (includes_lower_trim raw "bachelor") by reflexivity.
  rewrite <- (includes_lower_trim raw "master") by reflexivity.
  rewrite <- (includes_lower_trim raw "university") by reflexivity.
  reflexivity.
Qed.

Lemma educationLoop_spec (lines : list string) :
  educationLoop lines
  = match firstEducationLine lines with
    | Some (line, next) => [educationOf line next]
    | None => []
    end.
Proof.
  induction lines as [|raw rest IH]; [reflexivity|].
  cbn [educationLoop firstEducationLine].
  rewrite mentionsEducation_trim.
  destruct (mentionsEducation raw); [|exact IH].
  unfold educationOf.
  rewrite !(includes_trim raw) by reflexivity.
  replace (match rest with
           | [] => ""
           | next :: _ => trim next
           end) with (trim (hd "" rest)) by (destruct rest; reflexivity).
  rewrite (includes_trim (hd "" rest)) by reflexivity.
  reflexivity.
Qed.

(** X17: the one education entry is read from the first line that
    mentions bachelor, master or university, letter case apart, and from
    the line after it: the degree follows the capitalised words Bachelor
    and Master of that line only, and the school is the next line,
    trimmed, when it holds the word University; without such a line the
    entry is the placeholder. *)
Theorem extractEducationFromText_spec (text : string) :
  extractEducationFromText text
  = [ match firstEducationLine (split LF text) with
      | Some (line, next) => educationOf line next
      | None => placeholderEducation
      end ].
Proof.
  unfold extractEducationFromText; rewrite educationLoop_spec.
  destruct (firstEducationLine (split LF text)) as [[line next]|]; reflexivity.
Qed.

(** ** What the backfill keeps *)

(** X18: the backfill never alters what the model supplied: a string
    field keeps any truthy decoded value, a sequence field keeps any
    decoded array, elements included. *)
Theorem ensureFields_keeps_supplied (parsedData record : jsval) :
  ensureFields parsedData = Return record ->
  (forall field, In field stringFields ->
                 truthy (get parsedData field) = true ->
                 get record field = get parsedData field) /\
  (forall field, In field sequenceFields ->
                 isArray (get parsedData field) = true ->
                 get record field = get parsedData field).
Proof.
  unfold ensureFields; destruct (isNullish parsedData); [discriminate|].
  intros [= <-]; split; intros field Hin Hkept.
  - destruct Hin as [<-|[<-|[<-|[<-|[]]]]];
      cbn [get lookup String.eqb Ascii.eqb Bool.eqb];
      apply or_truthy; exact Hkept.
  - destruct Hin as [<-|[<-|[<-|[<-|[<-|[]]]]]];
      cbn [get lookup String.eqb Ascii.eqb Bool.eqb];
      unfold arrayOrEmpty; rewrite Hkept; reflexivity.
Qed.

Lemma ensureFields_keeps_supplied_witness :
  (forall field, In field stringFields ->
                 truthy (get (JObj [("name", JStr "X")]) field) = true ->
                 get recordOfOnlyName field
                 = get (JObj [("name", JStr "X")]) field) /\
  (forall field, In field sequenceFields ->
                 isArray (get (JObj [("name", JStr "X")]) field) = true ->
                 get recordOfOnlyName field
                 = get (JObj [("name", JStr "X")]) field).
Proof.
  apply (ensureFields_keeps_supplied (JObj [("name", JStr "X")]) recordOfOnlyName).
  reflexivity.
Defined.

(** X19: the record holds the nine fields and nothing else: any other
    key of the decoded object is dropped. *)
Theorem ensureFields_drops_other_keys (parsedData record : jsval) (key : string) :
  ensureFields parsedData = Return record ->
  ~ In key (stringFields ++ sequenceFields) ->
  get record key = JUndefined.
Proof.
  unfold ensureFields; destruct (isNullish parsedData); [discriminate|].
  intros [= <-] Hkey; unfold get; cbn [lookup].
  repeat match goal with
         | |- context [String.eqb ?k key] =>
             destruct (String.eqb_spec k key) as [<-|_];
             [exfalso; apply Hkey; simpl; tauto|]
         end.
  reflexivity.
Qed.

Lemma ensureFields_drops_other_keys_witness :
  get recordOfOnlyName "address" = JUndefined.
Proof.
  apply (ensureFields_drops_other_keys
           (JObj [("name", JStr "X"); ("address", JStr "1 Main St")])
           recordOfOnlyName "address").
  - reflexivity.
  - simpl; intros H; repeat (destruct H as [H|H]; [discriminate H|]); exact H.
Defined.

(** ** The brief of a record without education *)

(** X20: for a record without education entry, the templated sentence
    reads "hold a undefined": the missing degree is rendered as the word
    undefined. *)
Theorem briefTemplate_without_education (resumeData : CandidateRecord) :
  education resumeData = [] ->
  exists before after,
    briefTemplate resumeData
    = (before ++ "hold a undefined" ++ after)%string.
Proof.
  intros He; unfold briefTemplate; rewrite He; cbn [nth_error].
  exists (name resumeData ++ " is a qualified "
          ++ orElse (option_map title (nth_error (experience resumeData) 0))
                    "professional"
          ++ " with expertise in " ++ join ", " (slice 0 3 (skills resumeData))
          ++ ". They have " ++ decimal (List.length (experience resumeData))
          ++ "+ years of experience and ")%string.
  exists (". Strong technical background with proven experience in software development and modern technologies. Excellent candidate for technical roles requiring "
          ++ join " and " (slice 0 2 (skills resumeData)) ++ " expertise.")%string.
  rewrite !append_assoc; reflexivity.
Qed.

Lemma briefTemplate_without_education_witness :
  exists before after,
    briefTemplate (mkCandidate "X" "unknown@email.com" "Not provided" ""
                     [] [] [] [] [])
    = (before ++ "hold a undefined" ++ after)%string.
Proof.
  apply (briefTemplate_without_education
           (mkCandidate "X" "unknown@email.com" "Not provided" "" [] [] [] [] [])).
  reflexivity.
Defined.
